(** * qsspp: a shallow embedding of [src/qsspp/core.py]

    The preprocessor turns an extended stylesheet into plain QSS in six
    textual stages: import inlining, variable extraction, declaration
    stripping, comment removal, variable expansion and colour-function
    evaluation.  Every stage is driven by one of five regular expressions,
    so the development starts with the pieces of the Python runtime the
    stages lean on (string methods, [int(s, 16)], number formatting,
    float-to-int conversions, the backtracking [re] matcher) and then
    follows [core.py] function by function.

    Text is [string]; the character tables below are Python's for code
    points below 128, which is the domain of the model.  Floats are the
    kernel's binary64 numbers, so the arithmetic of [_lighten], [_darken]
    and [_alpha] is IEEE arithmetic, not an idealisation over the reals. *)

From Stdlib Require Import ZArith String Ascii List Bool Lia.
From Stdlib Require Import Numbers.DecimalString.
From Stdlib Require Import Floats.PrimFloat Floats.FloatOps Floats.SpecFloat.
From Stdlib Require Import Floats.FloatAxioms.
From Stdlib Require Import Numbers.Cyclic.Int63.Uint63.
From stdpp Require Import gmap strings.

Local Open Scope string_scope.
Local Open Scope Z_scope.

(** ** Exceptions and the error monad *)

(** The exception classes that [core.py] raises itself or lets escape from
    a builtin, each with its message. *)
Inductive exn :=
| ValueError (msg : string)
| OverflowError (msg : string)
| RuntimeError (msg : string)
| FileNotFoundError (msg : string)
| OSError (msg : string)
| RecursionError.

Inductive result (A : Type) :=
| Ok (a : A)
| Raise (e : exn).
Arguments Ok {A} a.
Arguments Raise {A} e.

Definition rbind {A B} (x : result A) (f : A -> result B) : result B :=
  match x with
  | Ok a => f a
  | Raise e => Raise e
  end.

#[global] Instance result_ret : MRet result := @Ok.
#[global] Instance result_bind : MBind result := fun A B f x => rbind x f.

(** ** Characters and [str] methods *)

Module Py.

Definition code (c : ascii) : N := N_of_ascii c.

Definition between (lo hi : N) (c : ascii) : bool :=
  (N.leb lo (code c) && N.leb (code c) hi)%bool.

Definition is_digit (c : ascii) : bool := between 48 57 c.
Definition is_upper (c : ascii) : bool := between 65 90 c.
Definition is_lower (c : ascii) : bool := between 97 122 c.
Definition is_alpha (c : ascii) : bool := (is_upper c || is_lower c)%bool.

(** [\w] of the [re] module. *)
Definition is_word (c : ascii) : bool :=
  (is_alpha c || is_digit c || Ascii.eqb c "_")%bool.

(** [str.isspace], which is also [\s] of [re] and what [str.strip]
    removes: tab, line feed, vertical tab, form feed, carriage return, the
    four separators 28..31 and the blank. *)
Definition is_space (c : ascii) : bool :=
  (between 9 13 c || between 28 32 c)%bool.

(** The C locale's [isspace], used by [int(s, base)] to trim its input. *)
Definition is_cspace (c : ascii) : bool :=
  (between 9 13 c || Ascii.eqb c " ")%bool.

Definition lower_char (c : ascii) : ascii :=
  if is_upper c then ascii_of_N (code c + 32) else c.

Fixpoint lower (s : string) : string :=
  match s with
  | EmptyString => EmptyString
  | String c s' => String (lower_char c) (lower s')
  end.

Fixpoint lstrip_by (sp : ascii -> bool) (s : string) : string :=
  match s with
  | EmptyString => EmptyString
  | String c s' => if sp c then lstrip_by sp s' else s
  end.

Fixpoint rstrip_by (sp : ascii -> bool) (s : string) : string :=
  match s with
  | EmptyString => EmptyString
  | String c s' =>
      match rstrip_by sp s' with
      | EmptyString => if sp c then EmptyString else String c EmptyString
      | t => String c t
      end
  end.

Definition strip_by (sp : ascii -> bool) (s : string) : string :=
  rstrip_by sp (lstrip_by sp s).

(** [s.strip()] *)
Definition strip (s : string) : string := strip_by is_space s.

(** [s.startswith(p)] *)
Definition startswith (p s : string) : bool := String.prefix p s.

(** [s.endswith(p)] *)
Definition endswith (p s : string) : bool :=
  let n := String.length s in
  let k := String.length p in
  (Nat.leb k n && String.eqb (String.substring (n - k) k s) p)%bool.

(** [p in s] *)
Fixpoint contains (p s : string) : bool :=
  (String.prefix p s ||
   match s with
   | EmptyString => false
   | String _ s' => contains p s'
   end)%bool.

(** [s[:-1]] *)
Definition drop_last (s : string) : string :=
  String.substring 0 (String.length s - 1) s.

(** [repr(s)], which is how [int] and [float] quote the text they
    refuse.  The quote is the single one, or the double one when the text
    holds a single quote and no double one; the quote in use and the
    backslash are escaped, as are tab, line feed and carriage return; the
    other control characters are written in hexadecimal.  Above 126 the
    code points that are not printable (127 to 160, and 173) are written
    in hexadecimal too. *)
Definition hex_lower (d : N) : ascii :=
  ascii_of_N (if N.ltb d 10 then 48 + d else 87 + d).

Definition is_printable (c : ascii) : bool :=
  (between 32 126 c || (between 161 255 c && negb (N.eqb (code c) 173)))%bool.

Definition backslash : ascii := "092"%char.

Definition escape (c : ascii) : string := String backslash (String c EmptyString).

Definition repr_char (quote c : ascii) : string :=
  if (Ascii.eqb c quote || Ascii.eqb c backslash)%bool then escape c
  else if Ascii.eqb c "009" then escape "t"
  else if Ascii.eqb c "010" then escape "n"
  else if Ascii.eqb c "013" then escape "r"
  else if is_printable c then String c EmptyString
  else escape "x" +:+ String (hex_lower (code c / 16))
                        (String (hex_lower (code c mod 16)) EmptyString).

Fixpoint repr_body (quote : ascii) (s : string) : string :=
  match s with
  | EmptyString => String quote EmptyString
  | String c s' => repr_char quote c +:+ repr_body quote s'
  end.

Definition repr (s : string) : string :=
  let quote : ascii :=
    if (contains "'" s && negb (contains (String "034" EmptyString) s))%bool
    then "034"%char else "'"%char in
  String quote (repr_body quote s).

(** [sep.join(parts)] *)
Fixpoint join (sep : string) (parts : list string) : string :=
  match parts with
  | [] => EmptyString
  | [x] => x
  | x :: rest => x +:+ sep +:+ join sep rest
  end.

(** [''.join(ch * 2 for ch in s)] *)
Fixpoint double_chars (s : string) : string :=
  match s with
  | EmptyString => EmptyString
  | String c s' => String c (String c (double_chars s'))
  end.

(** Line boundaries of [str.splitlines] below 128: line feed, carriage
    return (a following line feed belongs to it), vertical tab, form feed
    and the separators 28..30. *)
Definition is_linebreak (c : ascii) : bool :=
  (between 10 13 c || between 28 30 c)%bool.

(** [s.splitlines()]: [cur] is the line read so far, [started] whether it
    has a character yet (a final line break opens no new line). *)
Fixpoint splitlines_from (cur : string) (started : bool) (s : string) : list string :=
  match s with
  | EmptyString => if started then [cur] else []
  | String c s' =>
      if is_linebreak c then
        match s' with
        | String c2 s'' =>
            if (Ascii.eqb c "013" && Ascii.eqb c2 "010")%bool
            then cur :: splitlines_from EmptyString false s''
            else cur :: splitlines_from EmptyString false s'
        | EmptyString => [cur]
        end
      else splitlines_from (cur +:+ String c EmptyString) true s'
  end.

Definition splitlines (s : string) : list string :=
  splitlines_from EmptyString false s.

End Py.

(** ** Integers: [int(s, 16)] and formatting *)

Module PyInt.

Definition hex_value (c : ascii) : option Z :=
  let n := Z.of_N (Py.code c) in
  if Py.is_digit c then Some (n - 48)
  else if Py.between 65 70 c then Some (n - 55)
  else if Py.between 97 102 c then Some (n - 87)
  else None.

(** The digit part of an integer literal: hexadecimal digits, single
    underscores allowed between two digits only. *)
Fixpoint digits16 (acc : Z) (after_digit : bool) (s : string) : option Z :=
  match s with
  | EmptyString => if after_digit then Some acc else None
  | String c s' =>
      if Ascii.eqb c "_" then
        if after_digit then digits16 acc false s' else None
      else
        match hex_value c with
        | Some d => digits16 (16 * acc + d) true s'
        | None => None
        end
  end.

(** After the sign: an optional [0x] or [0X], one underscore allowed right
    after it, then the digits. *)
Definition unsigned16 (s : string) : option Z :=
  match s with
  | String "0" (String x s') =>
      if (Ascii.eqb x "x" || Ascii.eqb x "X")%bool then
        match s' with
        | String "_" s'' => digits16 0 false s''
        | _ => digits16 0 false s'
        end
      else digits16 0 false s
  | _ => digits16 0 false s
  end.

Definition parse16 (s : string) : option Z :=
  match Py.strip_by Py.is_cspace s with
  | String "+" s' => unsigned16 s'
  | String "-" s' => Z.opp <$> unsigned16 s'
  | s' => unsigned16 s'
  end.

(** [int(s, 16)]; the message quotes the literal as [repr] does. *)
Definition int16 (s : string) : result Z :=
  match parse16 s with
  | Some n => Ok n
  | None => Raise (ValueError ("invalid literal for int() with base 16: " +:+ Py.repr s))
  end.

(** [str(n)], also what an f-string field [{n}] prints. *)
Definition to_dec (n : Z) : string := NilZero.string_of_int (Z.to_int n).

Definition hex_digit (d : Z) : ascii :=
  ascii_of_N (Z.to_N (if d <? 10 then 48 + d else 55 + d)).

(** Upper-case hexadecimal digits of [n >= 0], most significant first. *)
Fixpoint hex_digits (fuel : nat) (n : Z) (acc : string) : string :=
  match fuel with
  | O => acc
  | S fuel' =>
      let acc' := String (hex_digit (n mod 16)) acc in
      if n <? 16 then acc' else hex_digits fuel' (n / 16) acc'
  end.

Definition to_hex (n : Z) : string :=
  hex_digits (S (Z.to_nat (Z.log2 n))) n EmptyString.

(** The format field [{:02X}]: upper-case hexadecimal, padded with zeros
    after the sign to a width of two. *)
Definition format_02X (n : Z) : string :=
  let body := to_hex (Z.abs n) in
  if n <? 0 then "-" +:+ body
  else if Nat.ltb (String.length body) 2 then "0" +:+ body
  else body.

End PyInt.

(** ** Floats: conversions between [int] and [float] *)

Module PyFloat.

(** [float(n)] for an integer operand of mixed arithmetic; exact for
    [|n| < 2^53], and the channels of this program stay within [-255, 510]. *)
Definition of_int (n : Z) : float :=
  if n <? 0 then PrimFloat.opp (PrimFloat.of_uint63 (Uint63.of_Z (- n)))
  else PrimFloat.of_uint63 (Uint63.of_Z n).

Definition inf_msg : string := "cannot convert float infinity to integer".
Definition nan_msg : string := "cannot convert float NaN to integer".

Definition signed (neg : bool) (a : Z) : Z := if neg then - a else a.

(** [int(x)]: truncation towards zero. *)
Definition trunc (x : float) : result Z :=
  match Prim2SF x with
  | S754_zero _ => Ok 0
  | S754_infinity _ => Raise (OverflowError inf_msg)
  | S754_nan => Raise (ValueError nan_msg)
  | S754_finite neg m e =>
      Ok (signed neg (if 0 <=? e then Z.pos m * 2 ^ e else Z.pos m / 2 ^ (- e)))
  end.

(** [round(x)]: the nearest integer, ties to the even one. *)
Definition round (x : float) : result Z :=
  match Prim2SF x with
  | S754_zero _ => Ok 0
  | S754_infinity _ => Raise (OverflowError inf_msg)
  | S754_nan => Raise (ValueError nan_msg)
  | S754_finite neg m e =>
      if 0 <=? e then Ok (signed neg (Z.pos m * 2 ^ e))
      else
        let d := 2 ^ (- e) in
        let q := Z.pos m / d in
        let r := Z.pos m mod d in
        let up :=
          match 2 * r ?= d with
          | Lt => false
          | Gt => true
          | Eq => Z.odd q
          end in
        Ok (signed neg (if up then q + 1 else q))
  end.

(** A reference reader for plain decimal literals: an optional sign, digits
    and an optional fraction.  The value is [m / 10^k] computed in binary64,
    which is the correctly rounded result, hence Python's, whenever
    [m < 2^53] and [k <= 18] (both operands are then exact); the reader
    answers [None] everywhere else. *)
Fixpoint dec_digits (acc : Z) (n : nat) (s : string) : option (Z * nat * string) :=
  match s with
  | String c s' =>
      if Py.is_digit c
      then dec_digits (10 * acc + (Z.of_N (Py.code c) - 48)) (S n) s'
      else Some (acc, n, s)
  | EmptyString => Some (acc, n, s)
  end.

Definition dec_unsigned (s : string) : option float :=
  '(i, ni, s1) ← dec_digits 0 0 s;
  '(m, nf, s2) ←
     match s1 with
     | String "." s' => dec_digits i 0 s'
     | _ => Some (i, O, s1)
     end;
  match s2 with
  | EmptyString =>
      if (Nat.ltb 0 (ni + nf) && (m <? 2 ^ 53) && Nat.leb nf 18)%bool
      then Some (PrimFloat.div (of_int m) (of_int (10 ^ Z.of_nat nf)))
      else None
  | _ => None
  end.

Definition dec_float (s : string) : option float :=
  match Py.strip s with
  | String "+" s' => dec_unsigned s'
  | String "-" s' => PrimFloat.opp <$> dec_unsigned s'
  | s' => dec_unsigned s'
  end.

End PyFloat.

(** ** The [re] module: a backtracking matcher *)

Module Re.

(** The constructs the five patterns of [core.py] are written with. *)
Inductive regex :=
| Empty
| Chr (p : ascii -> bool)
| Cat (r1 r2 : regex)
| Alt (r1 r2 : regex)
| Star (r : regex)
| StarLazy (r : regex)
| Grp (i : nat) (r : regex)
| Bol
| Eol
| WordB.

(** Where the matcher stands: the character just before and the text that
    is left.  [^], [$] and [\b] look at both sides. *)
Record cursor := { prev : option ascii; rest : string }.

Definition captures := list (nat * string).

(** The text between two cursors of one subject. *)
Definition span (p p' : cursor) : string :=
  String.substring 0 (String.length (rest p) - String.length (rest p')) (rest p).

Definition advanced (p p' : cursor) : bool :=
  Nat.ltb (String.length (rest p')) (String.length (rest p)).

Definition is_newline (c : ascii) : bool := Ascii.eqb c "010".

(** [^] under [re.MULTILINE]. *)
Definition at_bol (p : cursor) : bool :=
  match prev p with
  | None => true
  | Some c => is_newline c
  end.

(** [$] under [re.MULTILINE]. *)
Definition at_eol (p : cursor) : bool :=
  match rest p with
  | EmptyString => true
  | String c _ => is_newline c
  end.

(** [\b] *)
Definition at_word_boundary (p : cursor) : bool :=
  xorb (from_option Py.is_word false (prev p))
       (match rest p with
        | EmptyString => false
        | String c _ => Py.is_word c
        end).

Section Matcher.
Context {A : Type}.

(** [rmatch r p g k]: match [r] at [p], then continue with [k]; the first
    success in backtracking order wins.  A repetition gives up an
    iteration that consumed nothing, and its fuel is the length of the
    text left, which such iterations cannot exceed. *)
Fixpoint rmatch (r : regex) (p : cursor) (g : captures)
    (k : cursor -> captures -> option A) {struct r} : option A :=
  match r with
  | Empty => k p g
  | Chr f =>
      match rest p with
      | String c s => if f c then k {| prev := Some c; rest := s |} g else None
      | EmptyString => None
      end
  | Cat r1 r2 => rmatch r1 p g (fun p' g' => rmatch r2 p' g' k)
  | Alt r1 r2 =>
      match rmatch r1 p g k with
      | Some x => Some x
      | None => rmatch r2 p g k
      end
  | Star r1 =>
      (fix loop (fuel : nat) (p : cursor) (g : captures) : option A :=
         match fuel with
         | O => k p g
         | S fuel' =>
             match rmatch r1 p g
                     (fun p' g' => if advanced p p' then loop fuel' p' g' else None) with
             | Some x => Some x
             | None => k p g
             end
         end) (String.length (rest p)) p g
  | StarLazy r1 =>
      (fix loop (fuel : nat) (p : cursor) (g : captures) : option A :=
         match fuel with
         | O => k p g
         | S fuel' =>
             match k p g with
             | Some x => Some x
             | None =>
                 rmatch r1 p g
                   (fun p' g' => if advanced p p' then loop fuel' p' g' else None)
             end
         end) (String.length (rest p)) p g
  | Grp i r1 => rmatch r1 p g (fun p' g' => k p' ((i, span p p') :: g'))
  | Bol => if at_bol p then k p g else None
  | Eol => if at_eol p then k p g else None
  | WordB => if at_word_boundary p then k p g else None
  end.
End Matcher.

(** A match object: [m.group(0)] and the numbered groups. *)
Record mobj := { whole : string; groups : captures }.

(** [m.group(i)] *)
Definition group (m : mobj) (i : nat) : string :=
  match i with
  | O => whole m
  | _ => from_option id EmptyString (snd <$> List.find (fun e => Nat.eqb (fst e) i) (groups m))
  end.

(** [pattern.match] at a cursor. *)
Definition match_at (r : regex) (p : cursor) : option (cursor * mobj) :=
  rmatch r p [] (fun p' g => Some (p', {| whole := span p p'; groups := g |})).

(** The subject cut at the matches: what [finditer] visits and what [sub]
    copies in between. *)
Inductive segment :=
| Lit (c : ascii)
| Hit (m : mobj).

Definition step_over (p : cursor) (k : cursor -> list segment) : list segment :=
  match rest p with
  | EmptyString => []
  | String c s => Lit c :: k {| prev := Some c; rest := s |}
  end.

(** The scanning loop of [finditer] and [sub]: leftmost match first, then
    on from its end; after an empty match the next character is copied. *)
Fixpoint scan (fuel : nat) (r : regex) (p : cursor) : list segment :=
  match fuel with
  | O => []
  | S fuel' =>
      match match_at r p with
      | Some (p', m) =>
          if advanced p p' then Hit m :: scan fuel' r p'
          else Hit m :: step_over p (scan fuel' r)
      | None => step_over p (scan fuel' r)
      end
  end.

Definition segments (r : regex) (s : string) : list segment :=
  scan (S (String.length s)) r {| prev := None; rest := s |}.

(** [pattern.finditer(s)] *)
Definition finditer (r : regex) (s : string) : list mobj :=
  omap (fun x => match x with Hit m => Some m | Lit _ => None end) (segments r s).

Definition seg_text (x : segment) : string :=
  match x with
  | Lit c => String c EmptyString
  | Hit m => whole m
  end.

Definition seg_out (repl : mobj -> string) (x : segment) : string :=
  match x with
  | Lit c => String c EmptyString
  | Hit m => repl m
  end.

(** [pattern.sub(repl, s)] with a callable [repl]. *)
Definition sub (r : regex) (repl : mobj -> string) (s : string) : string :=
  String.concat EmptyString (seg_out repl <$> segments r s).

(** [sub] with a [repl] that may raise: the matches are replaced from left
    to right and the first exception ends the call. *)
Fixpoint sub_segments (repl : mobj -> result string) (l : list segment) : result string :=
  match l with
  | [] => Ok EmptyString
  | Lit c :: l' => t ← sub_segments repl l'; Ok (String c t)
  | Hit m :: l' => x ← repl m; t ← sub_segments repl l'; Ok (x +:+ t)
  end.

Definition sub_result (r : regex) (repl : mobj -> result string) (s : string) : result string :=
  sub_segments repl (segments r s).

(** *** Pattern syntax *)

Definition chr (c : ascii) : regex := Chr (Ascii.eqb c).
Definition chr_nocase (c : ascii) : regex :=
  Chr (fun x => Ascii.eqb (Py.lower_char x) (Py.lower_char c)).
Definition not_chr (c : ascii) : regex := Chr (fun x => negb (Ascii.eqb x c)).
Definition plus (r : regex) : regex := Cat r (Star r).
Definition plus_lazy (r : regex) : regex := Cat r (StarLazy r).

Fixpoint seq (l : list regex) : regex :=
  match l with
  | [] => Empty
  | [r] => r
  | r :: l' => Cat r (seq l')
  end.

Fixpoint lit (s : string) : regex :=
  match s with
  | EmptyString => Empty
  | String c EmptyString => chr c
  | String c s' => Cat (chr c) (lit s')
  end.

Fixpoint lit_nocase (s : string) : regex :=
  match s with
  | EmptyString => Empty
  | String c EmptyString => chr_nocase c
  | String c s' => Cat (chr_nocase c) (lit_nocase s')
  end.

(** [\s], [\w], [.] and [.] under [re.DOTALL] *)
Definition space : regex := Chr Py.is_space.
Definition word : regex := Chr Py.is_word.
Definition dot : regex := Chr (fun c => negb (is_newline c)).
Definition dot_all : regex := Chr (fun _ => true).
(** [[A-Za-z_]] *)
Definition ident_start : regex :=
  Chr (fun c => (Py.is_alpha c || Ascii.eqb c "_")%bool).

End Re.

(** ** [core.py] *)

Import Re.

(** *** The patterns *)

Definition dquote : ascii := "034"%char.

(** The patterns are quoted with blanks between their parts.  Their
    classes [\w], [\s] and [\b] are those of [Py.is_word] and
    [Py.is_space]: on text of code points below 128 they are the classes
    of [re] for [str] patterns, and the statements that depend on them
    are about such text ([ascii_text]).

    [^ \s* \$ ( [A-Za-z_] \w* ) \s* : \s* ( .+? ) ; \s* $] under
    [re.MULTILINE]. *)
Definition _VAR_DEF_RE : regex :=
  seq [Bol; Star space; chr "$"; Grp 1 (Cat ident_start (Star word));
       Star space; chr ":"; Star space; Grp 2 (plus_lazy dot); chr ";";
       Star space; Eol].

(** [\$ ( [A-Za-z_] \w* ) \b] *)
Definition _VAR_USE_RE : regex :=
  seq [chr "$"; Grp 1 (Cat ident_start (Star word)); WordB].

(** [^ \s* @import \s+ Q ( [^Q]+ ) Q \s* ; .* $] under [re.MULTILINE],
    where Q stands for the double quote. *)
Definition _IMPORT_RE : regex :=
  seq [Bol; Star space; lit "@import"; plus space; chr dquote;
       Grp 1 (plus (not_chr dquote)); chr dquote; Star space; chr ";";
       Star dot; Eol].

(** [\b ( darken | lighten | alpha ) \( \s* ( [^,]+ ) \s* , \s* ( [^)]+ ) \)]
    under [re.IGNORECASE]. *)
Definition _FUNC_RE : regex :=
  seq [WordB;
       Grp 1 (Alt (lit_nocase "darken") (Alt (lit_nocase "lighten") (lit_nocase "alpha")));
       chr "("; Star space; Grp 2 (plus (not_chr ",")); Star space; chr ",";
       Star space; Grp 3 (plus (not_chr ")")); chr ")"].

(** [/ \* .*? \* /] under [re.DOTALL]. *)
Definition _COMMENT_RE : regex :=
  seq [lit "/*"; StarLazy dot_all; lit "*/"].

(** *** Colours *)

Definition _hex_to_rgb (s : string) : result (Z * Z * Z) :=
  let s := Py.strip s in
  let s := if Py.startswith "#" s
           then String.substring 1 (String.length s - 1) s else s in
  let s := if Nat.eqb (String.length s) 3 then Py.double_chars s else s in
  if negb (Nat.eqb (String.length s) 6)
  then Raise (ValueError ("Invalid color: #" +:+ s))
  else
    r ← PyInt.int16 (String.substring 0 2 s);
    g ← PyInt.int16 (String.substring 2 2 s);
    b ← PyInt.int16 (String.substring 4 2 s);
    Ok (r, g, b).

Definition clamp255 (n : Z) : Z := Z.max 0 (Z.min 255 n).

Definition _rgb_to_hex (r g b : Z) : string :=
  "#" +:+ PyInt.format_02X (clamp255 r)
      +:+ PyInt.format_02X (clamp255 g)
      +:+ PyInt.format_02X (clamp255 b).

Section Functions.
(** The builtin [float] on text: [None] stands for its [ValueError],
    whose message quotes the text as [repr] does. *)
Variable float_of_str : string -> option float.

Definition py_float (s : string) : result float :=
  match float_of_str s with
  | Some x => Ok x
  | None => Raise (ValueError ("could not convert string to float: " +:+ Py.repr s))
  end.

Definition _parse_percent_or_float (s : string) : result float :=
  let s := Py.strip s in
  if Py.endswith "%" s
  then x ← py_float (Py.drop_last s); Ok (x / 100)%float
  else py_float s.

(** [int(c + (255 - c) * f)] *)
Definition lighten_channel (c : Z) (f : float) : result Z :=
  PyFloat.trunc (PyFloat.of_int c + PyFloat.of_int (255 - c) * f)%float.

(** [int(c * (1 - f))] *)
Definition darken_channel (c : Z) (f : float) : result Z :=
  PyFloat.trunc (PyFloat.of_int c * (PyFloat.of_int 1 - f))%float.

Definition _lighten (hex_color amt : string) : result string :=
  '(r, g, b) ← _hex_to_rgb hex_color;
  f ← _parse_percent_or_float amt;
  r ← lighten_channel r f;
  g ← lighten_channel g f;
  b ← lighten_channel b f;
  Ok (_rgb_to_hex r g b).

Definition _darken (hex_color amt : string) : result string :=
  '(r, g, b) ← _hex_to_rgb hex_color;
  f ← _parse_percent_or_float amt;
  r ← darken_channel r f;
  g ← darken_channel g f;
  b ← darken_channel b f;
  Ok (_rgb_to_hex r g b).

(** [0 <= a_val <= 1] *)
Definition in_unit (x : float) : bool :=
  (PrimFloat.leb (PyFloat.of_int 0) x && PrimFloat.leb x (PyFloat.of_int 1))%bool.

Definition rgba (r g b a : Z) : string :=
  "rgba(" +:+ PyInt.to_dec r +:+ ", " +:+ PyInt.to_dec g +:+ ", "
          +:+ PyInt.to_dec b +:+ ", " +:+ PyInt.to_dec a +:+ ")".

Definition _alpha (hex_color a : string) : result string :=
  '(r, g, b) ← _hex_to_rgb hex_color;
  a_val ← _parse_percent_or_float a;
  alpha_255 ←
    (if in_unit a_val
     then PyFloat.round (a_val * PyFloat.of_int 255)%float
     else x ← _parse_percent_or_float a;
          PyFloat.round (x * PyFloat.of_int 255)%float);
  Ok (rgba r g b alpha_255).

(** The [repl] callback of [_apply_functions]. *)
Definition repl (m : mobj) : result string :=
  let func := Py.lower (group m 1) in
  let color := Py.strip (group m 2) in
  let amt := Py.strip (group m 3) in
  if String.eqb func "lighten" then _lighten color amt
  else if String.eqb func "darken" then _darken color amt
  else if String.eqb func "alpha" then _alpha color amt
  else Ok (group m 0).

(** The [for _ in range(10)] loop of [_apply_functions]. *)
Fixpoint apply_passes (n : nat) (cur : string) : result string :=
  match n with
  | O => Ok cur
  | S n' =>
      cur2 ← sub_result _FUNC_RE repl cur;
      if String.eqb cur2 cur then Ok cur else apply_passes n' cur2
  end.

Definition _apply_functions (text : string) : result string :=
  apply_passes 10 text.
End Functions.


(** *** Imports *)

(** [sub] with a [repl] that reads and updates a state of type [S]. *)
Fixpoint sub_segments_st {S : Type} (repl : mobj -> S -> result (string * S))
    (l : list segment) (st : S) : result (string * S) :=
  match l with
  | [] => Ok (EmptyString, st)
  | Lit c :: l' =>
      '(t, st') ← sub_segments_st repl l' st; Ok (String c t, st')
  | Hit m :: l' =>
      '(x, st1) ← repl m st;
      '(t, st2) ← sub_segments_st repl l' st1;
      Ok (x +:+ t, st2)
  end.

Section Imports.
(** What [pathlib] and the disk provide: [p.resolve()],
    [source.parent / rel], [p.exists()] and [p.read_text()]. *)
Variable resolve : string -> string.
Variable sibling : string -> string -> string.
Variable path_exists : string -> bool.
Variable read_text : string -> result string.

Definition cycle_error (source : string) : exn :=
  RuntimeError ("Import cycle detected with: " +:+ source).

Definition missing_error (child : string) : exn :=
  FileNotFoundError ("@import not found: " +:+ child).

(** The body of [import_repl] up to the recursive call, which is [k]. *)
Definition import_repl (k : string -> gset string -> result (string * gset string))
    (source : string) (m : mobj) (visited : gset string)
    : result (string * gset string) :=
  let rel := group m 1 in
  let child := resolve (sibling source rel) in
  if negb (path_exists child) then Raise (missing_error child)
  else k child visited.

(** [_collect]: [visited] is the set every call of one compilation
    shares, so it is threaded through; [depth] is the interpreter's
    recursion limit. *)
Fixpoint _collect (depth : nat) (source : string) (visited : gset string)
    : result (string * gset string) :=
  match depth with
  | O => Raise RecursionError
  | S depth' =>
      let source := resolve source in
      if bool_decide (source ∈ visited) then Raise (cycle_error source)
      else
        let visited := {[source]} ∪ visited in
        text ← read_text source;
        sub_segments_st (import_repl (_collect depth') source)
          (segments _IMPORT_RE text) visited
  end.
End Imports.

(** *** Variables *)

(** A [dict] of strings, in insertion order. *)
Definition dict := list (string * string).

(** [d.get(k)] *)
Fixpoint dict_get (d : dict) (k : string) : option string :=
  match d with
  | [] => None
  | (k', v) :: d' => if String.eqb k' k then Some v else dict_get d' k
  end.

(** [d[k] = v]: an existing key keeps its place. *)
Fixpoint dict_set (d : dict) (k v : string) : dict :=
  match d with
  | [] => [(k, v)]
  | (k', v') :: d' =>
      if String.eqb k' k then (k', v) :: d' else (k', v') :: dict_set d' k v
  end.

Definition _extract_vars (text : string) : dict :=
  fold_left (fun vars_ m => dict_set vars_ (group m 1) (Py.strip (group m 2)))
            (finditer _VAR_DEF_RE text) [].

Definition _remove_comments (text : string) : string :=
  sub _COMMENT_RE (fun _ => EmptyString) text.

Definition is_variables_banner (stripped : string) : bool :=
  (Py.startswith "/*" stripped && Py.contains "Variables" stripped
   && Py.endswith "*/" stripped)%bool.

(** [str.splitlines] and [str.strip] as [Py] has them, which is Python's
    behaviour on text of code points below 128. *)
Definition _remove_var_declarations (text : string) : string :=
  let text := sub _VAR_DEF_RE (fun _ => EmptyString) text in
  let keep line :=
    let stripped := Py.strip line in
    negb (String.eqb stripped EmptyString || is_variables_banner stripped) in
  Py.join (String "010" EmptyString) (List.filter keep (Py.splitlines text)).

(** The callback of both substitutions in [_expand_vars]:
    [resolved.get(m.group(1), m.group(0))]. *)
Definition use_repl (resolved : dict) (m : mobj) : string :=
  from_option id (group m 0) (dict_get resolved (group m 1)).

(** One run of [for k, v in list(resolved.items())]: the pairs come from
    the copy made when the run starts, the lookups go to the live table. *)
Fixpoint resolve_items (items : list (string * string)) (resolved : dict)
    (changed : bool) : dict * bool :=
  match items with
  | [] => (resolved, changed)
  | (k, v) :: items' =>
      let new_v := sub _VAR_USE_RE (use_repl resolved) v in
      if negb (String.eqb new_v v)
      then resolve_items items' (dict_set resolved k new_v) true
      else resolve_items items' resolved changed
  end.

(** The [for _ in range(10)] loop of [_expand_vars]. *)
Fixpoint resolve_passes (n : nat) (resolved : dict) : dict :=
  match n with
  | O => resolved
  | S n' =>
      let '(resolved', changed) := resolve_items resolved resolved false in
      if negb changed then resolved' else resolve_passes n' resolved'
  end.

Definition _expand_vars (text : string) (vars_ : dict) : string :=
  let resolved := resolve_passes 10 vars_ in
  sub _VAR_USE_RE (use_repl resolved) text.

(** *** The pipeline *)

Section Compile.
Variable float_of_str : string -> option float.
Variable resolve : string -> string.
Variable sibling : string -> string -> string.
Variable path_exists : string -> bool.
Variable read_text : string -> result string.

Definition compile_qss (depth : nat) (input_path : string) : result string :=
  let root := resolve input_path in
  '(raw, _) ← _collect resolve sibling path_exists read_text depth root ∅;
  let vars_ := _extract_vars raw in
  let without_defs := _remove_var_declarations raw in
  let without_defs := _remove_comments without_defs in
  let expanded := _expand_vars without_defs vars_ in
  _apply_functions float_of_str expanded.
End Compile.

(** ** A small disk for the examples *)

Module Disk.
(** Files of one directory, named by their absolute paths. *)
Definition files := list (string * string).

Definition resolve (p : string) : string := p.

(** The directory part of a path, with its final slash. *)
Fixpoint dirname (p : string) : string :=
  match p with
  | EmptyString => EmptyString
  | String c p' =>
      if Py.contains "/" p' then String c (dirname p')
      else if Ascii.eqb c "/" then String c EmptyString else EmptyString
  end.

Definition sibling (source rel : string) : string := dirname source +:+ rel.

Definition path_exists (fs : files) (p : string) : bool :=
  bool_decide (is_Some (dict_get fs p)).

Definition read_text (fs : files) (p : string) : result string :=
  match dict_get fs p with
  | Some t => Ok t
  | None => Raise (FileNotFoundError ("[Errno 2] No such file or directory: '" +:+ p +:+ "'"))
  end.

Definition compile (fs : files) (input_path : string) : result string :=
  compile_qss PyFloat.dec_float resolve sibling (path_exists fs) (read_text fs)
    1000 input_path.
End Disk.


(** ** Vocabulary of the statements *)

Definition is_hex_digit (c : ascii) : bool :=
  bool_decide (is_Some (PyInt.hex_value c)).

Fixpoint all_chars (f : ascii -> bool) (s : string) : bool :=
  match s with
  | EmptyString => true
  | String c s' => (f c && all_chars f s')%bool
  end.

(** A text of code points below 128, where the character classes of the
    model ([\w], [\s], [\b], [str.strip], [str.splitlines], [str.lower])
    are Python's. *)
Definition ascii_text (s : string) : bool :=
  all_chars (fun c => N.ltb (Py.code c) 128) s.

(** A table whose names and values are such texts. *)
Definition ascii_table (d : dict) : bool :=
  forallb (fun kv => (ascii_text kv.1 && ascii_text kv.2)%bool) d.

Definition upper_char (c : ascii) : ascii :=
  if Py.is_lower c then ascii_of_N (Py.code c - 32) else c.

Fixpoint upper (s : string) : string :=
  match s with
  | EmptyString => EmptyString
  | String c s' => String (upper_char c) (upper s')
  end.

Definition is_upper_hex_digit (c : ascii) : bool :=
  (Py.is_digit c || Py.between 65 70 c)%bool.

(** Every character, and every value of a colour channel. *)
Definition all_ascii : list ascii := ascii_of_nat <$> List.seq 0%nat 256%nat.

Definition all_bytes : list Z := Z.of_nat <$> List.seq 0%nat 256%nat.

(** [p'] is [p] moved over the text [t]. *)
Definition moved (p p' : cursor) (t : string) : Prop :=
  rest p = t +:+ rest p'.

(** A colour written [#RRGGBB]. *)
Definition is_hex6 (c : string) : bool :=
  match c with
  | String "#" s => (Nat.eqb (String.length s) 6 && all_chars is_hex_digit s)%bool
  | _ => false
  end.

(** A colour written [#RGB] or [#RRGGBB]. *)
Definition well_formed_color (c : string) : bool :=
  match c with
  | String "#" s =>
      ((Nat.eqb (String.length s) 3 || Nat.eqb (String.length s) 6)
       && all_chars is_hex_digit s)%bool
  | _ => false
  end.

(** What [_hex_to_rgb] measures: the argument trimmed, without one leading
    [#], a three-character form doubled. *)
Definition color_digits (c : string) : string :=
  let s := Py.strip c in
  let s := if Py.startswith "#" s
           then String.substring 1 (String.length s - 1) s else s in
  if Nat.eqb (String.length s) 3 then Py.double_chars s else s.

Definition invalid_color (c : string) : exn :=
  ValueError ("Invalid color: #" +:+ color_digits c).


(** *** The variable expander, round by round

    What the loop of [_expand_vars] computes, written without its flag:
    at most ten rounds, each rewriting every value in table order with
    the references looked up in the live table, that is the table as the
    round has rewritten it so far; the first round that changes nothing
    ends the loop; then one substitution over the body. *)






(** *** The variable expander in the words of its description

    Each round substitutes in every value using the current table
    snapshot, the table as it was when the round started; at most ten
    rounds, until a round changes no value; then one substitution over
    the body. *)





(** *** Documents of the examples *)

Definition nl : string := String "010" EmptyString.


Definition chain_doc : string :=
  "$a: #111;" +:+ nl +:+ "$b: $a;" +:+ nl +:+ "color: $b;" +:+ nl.

Definition chain_disk : Disk.files := [("/w/main.qsspp", chain_doc)].

(** The same chain with the reference inside a call. *)
Definition chain_call_doc : string :=
  "$a: #111;" +:+ nl +:+ "$b: $a;" +:+ nl +:+ "color: lighten($b, 0%);" +:+ nl.





Definition nested_call : string := "darken(lighten(#000000, 50%), 25%)".

(** A reader that also knows the literals [inf], [infinity] and [nan] of
    [float], in any letter case. *)
Definition literal_float (s : string) : option float :=
  if (String.eqb (Py.lower s) "inf" || String.eqb (Py.lower s) "infinity")%bool
  then Some infinity
  else if String.eqb (Py.lower s) "nan" then Some nan
  else PyFloat.dec_float s.


(** ** Vocabulary of the further properties *)

(** [c in s], for one character. *)
Fixpoint has_char (c : ascii) (s : string) : bool :=
  match s with
  | EmptyString => false
  | String x s' => (Ascii.eqb x c || has_char c s')%bool
  end.

(** Every match of [r] holds the character [c]: read off the pattern, a
    character class that admits [c] only, on every branch of an
    alternative. *)
Fixpoint demands (c : ascii) (r : regex) : Prop :=
  match r with
  | Chr f => ∀ x, f x = true → x = c
  | Cat r1 r2 => demands c r1 ∨ demands c r2
  | Alt r1 r2 => demands c r1 ∧ demands c r2
  | Grp _ r1 => demands c r1
  | _ => False
  end.

(** The value of the last declaration of [name] among the matches of
    [_VAR_DEF_RE]: group 2, trimmed. *)
Definition last_declared (name : string) (ms : list mobj) : option string :=
  (fun m => Py.strip (group m 2)) <$> last (filter (fun m => group m 1 = name) ms).

(** Every value a channel read by [_hex_to_rgb] can take. *)
Definition all_channels : list Z :=
  (fun k => Z.of_nat k - 15) <$> List.seq 0%nat 271%nat.

(** A line as [str.splitlines] returns it: no line boundary inside. *)
Definition no_break (s : string) : bool :=
  all_chars (fun c => negb (Py.is_linebreak c)) s.

(** [if not stripped] of [_remove_var_declarations], negated. *)
Definition not_blank (line : string) : bool :=
  negb (String.eqb (Py.strip line) EmptyString).

(** ** The command line: [src/qsspp/cli.py] *)

(** [main] is modelled from the parsed arguments on ([args.inputs] and
    [args.out]).  Paths are their strings, compared as POSIX paths are.
    What [pathlib] computes from a path alone is a function on strings;
    what it asks the file system is a function of the world [W]; the two
    calls that change the file system return the new world and may
    raise.  The log records, oldest first, the lines printed and the
    calls made. *)

Module Cli.

Inductive event :=
| Stdout (line : string)
| Stderr (line : string)
| Mkdir (path : string)
| WriteText (path : string) (data : string).

Record state (W : Type) := State { world : W; log : list event }.
Arguments State {W} world log.
Arguments world {W} s.
Arguments log {W} s.

(** A statement: it runs in a state, returns or raises, and leaves a
    state either way. *)
Definition io (W A : Type) : Type := state W -> result A * state W.

#[global] Instance io_ret {W} : MRet (io W) := fun A a s => (Ok a, s).
#[global] Instance io_bind {W} : MBind (io W) := fun A B k m s =>
  match m s with
  | (Ok a, s') => k a s'
  | (Raise e, s') => (Raise e, s')
  end.

(** [try: body except Exception as e: handler]; every class of [exn] is
    an [Exception]. *)
Definition try_except {W A} (body : io W A) (handler : exn -> io W A) : io W A :=
  fun s =>
    match body s with
    | (Ok a, s') => (Ok a, s')
    | (Raise e, s') => handler e s'
    end.

Definition emit {W} (e : event) : io W unit :=
  fun s => (Ok tt, State (world s) (log s ++ [e])).

(** A question to the file system, which may raise. *)
Definition ask {W A} (f : W -> result A) : io W A :=
  fun s => (f (world s), s).

(** [print(line)] and [print(line, file=sys.stderr)] *)
Definition print {W} (line : string) : io W unit := emit (Stdout line).
Definition eprint {W} (line : string) : io W unit := emit (Stderr line).

(** The loop at the end of [resolve_inputs]. *)
Fixpoint dedupe (files : list string) (seen : gset string) (uniq : list string)
    : list string :=
  match files with
  | [] => uniq
  | f :: files' =>
      if bool_decide (f ∈ seen) then dedupe files' seen uniq
      else dedupe files' ({[f]} ∪ seen) (uniq ++ [f])
  end.

Section Run.
Variable W : Type.
Variable float_of_str : string -> option float.
(** The interpreter: its recursion limit and what [str] gives for a
    [RecursionError]. *)
Variable depth : nat.
Variable recursion_message : string.
(** [Path(s)], [p.suffix], [p.stem], [p.parent], [p.with_suffix(x)],
    [p / name], and [source.parent / rel] of [core.py]. *)
Variable path_of : string -> string.
Variable suffix stem parent : string -> string.
Variable with_suffix joinpath sibling : string -> string -> string.
(** [p.resolve()], [p.exists()], [p.is_file()], [p.read_text()] and
    [Path().glob(pattern)], which raises on a pattern it does not accept. *)
Variable resolve : W -> string -> string.
Variable path_exists is_file : W -> string -> bool.
Variable read_text : W -> string -> result string.
Variable glob : W -> string -> result (list string).
(** [p.mkdir(parents=True, exist_ok=True)] and [p.write_text(data)]. *)
Variable os_mkdir : string -> W -> result unit * W.
Variable os_write_text : string -> string -> W -> result unit * W.

(** [str(e)] *)
Definition str_exn (e : exn) : string :=
  match e with
  | ValueError msg | OverflowError msg | RuntimeError msg
  | FileNotFoundError msg | OSError msg => msg
  | RecursionError => recursion_message
  end.

Definition mkdir (path : string) : io W unit :=
  fun s =>
    let '(r, w) := os_mkdir path (world s) in
    (r, State w (log s ++ [Mkdir path])).

Definition write_text (path data : string) : io W unit :=
  fun s =>
    let '(r, w) := os_write_text path data (world s) in
    (r, State w (log s ++ [WriteText path data])).

(** [compile_qss(src)] in the world as it is. *)
Definition compile (src : string) : io W string :=
  ask (fun w =>
         compile_qss float_of_str (resolve w) sibling (path_exists w) (read_text w)
           depth src).

Definition ok_line (src dst css : string) : string :=
  "[OK] " +:+ src +:+ " -> " +:+ dst +:+ " ("
    +:+ PyInt.to_dec (Z.of_nat (String.length css)) +:+ " bytes)".

Definition error_line (src : string) (e : exn) : string :=
  "[ERROR] " +:+ src +:+ ": " +:+ str_exn e.

Definition compile_one (src dst : string) : io W bool :=
  try_except
    (css ← compile src;
     mkdir (parent dst);;
     write_text dst css;;
     print (ok_line src dst css);;
     mret true)
    (fun e => eprint (error_line src e);; mret false).

Definition warn_line (pat : string) : string := "[WARN] no files matched: " +:+ pat.

(** The first loop of [resolve_inputs]. *)
Fixpoint glob_all (patterns files : list string) : io W (list string) :=
  match patterns with
  | [] => mret files
  | pat :: patterns' =>
      matches ← ask (fun w => glob w pat);
      (if bool_decide (matches = []) then eprint (warn_line pat) else mret tt);;
      glob_all patterns' (files ++ matches)
  end.

(** [p.is_file() and p.suffix.lower() == ".qsspp"] *)
Definition is_source (w : W) (p : string) : bool :=
  (is_file w p && String.eqb (Py.lower (suffix p)) ".qsspp")%bool.

Definition resolve_inputs (patterns : list string) : io W (list string) :=
  files ← glob_all patterns [];
  files ← ask (fun w => Ok (List.filter (is_source w) files));
  mret (dedupe files ∅ []).

(** [p.suffix.lower() == ".qss"] *)
Definition is_qss (p : string) : bool := String.eqb (Py.lower (suffix p)) ".qss".

(** [Path(args.out) if args.out else None]: an empty string counts as no
    option. *)
Definition out_path (out : option string) : option string :=
  match out with
  | Some o => if String.eqb o EmptyString then None else Some (path_of o)
  | None => None
  end.

(** [out_arg and out_arg.suffix.lower() == ".qss"], as a truth value. *)
Definition out_is_file (out_arg : option string) : bool :=
  match out_arg with
  | Some o => is_qss o
  | None => false
  end.

(** The destination of the single input. *)
Definition single_dst (src : string) (out_arg : option string) : string :=
  match out_arg with
  | Some o => if is_qss o then o else joinpath o (stem src +:+ ".qss")
  | None => with_suffix src ".qss"
  end.

(** The destination of one of several inputs. *)
Definition multi_dst (src : string) (out_arg : option string) : string :=
  match out_arg with
  | Some o => joinpath o (stem src +:+ ".qss")
  | None => with_suffix src ".qss"
  end.

(** [for src in sources: ... success &= compile_one(src, dst)] *)
Fixpoint compile_each (sources : list string) (out_arg : option string)
    (success : bool) : io W bool :=
  match sources with
  | [] => mret success
  | src :: sources' =>
      ok ← compile_one src (multi_dst src out_arg);
      compile_each sources' out_arg (success && ok)
  end.

Definition no_inputs_line : string := "[ERROR] no valid .qsspp inputs found.".
Definition out_not_dir_line : string :=
  "[ERROR] with multiple inputs, --out must be a directory (not a .qss file).".

Definition main (inputs : list string) (out : option string) : io W Z :=
  sources ← resolve_inputs inputs;
  match sources with
  | [] => eprint no_inputs_line;; mret 2
  | src :: others =>
      let out_arg := out_path out in
      if (Nat.ltb 1 (length sources) && out_is_file out_arg)%bool
      then eprint out_not_dir_line;; mret 2
      else
        success ←
          (if Nat.eqb (length sources) 1
           then compile_one src (single_dst src out_arg)
           else
             (match out_arg with
              | Some o => mkdir o
              | None => mret tt
              end);;
             compile_each sources out_arg true);
        mret (if success : bool then 0 else 1)
  end.
End Run.

End Cli.

(** *** Vocabulary of the statements about the command line *)


(** The warnings for the patterns that matched nothing. *)
Definition warnings (patterns : list string) (found : list (list string))
    : list Cli.event :=
  omap (fun '(pat, ms) =>
          if bool_decide (ms = []) then Some (Cli.Stderr (Cli.warn_line pat)) else None)
       (zip patterns found).

(** The report lines of [compile_one]. *)
Definition is_report (e : Cli.event) : bool :=
  match e with
  | Cli.Stdout line => Py.startswith "[OK] " line
  | Cli.Stderr line => Py.startswith "[ERROR] " line
  | _ => false
  end.

Definition is_ok_report (e : Cli.event) : bool :=
  match e with
  | Cli.Stdout line => Py.startswith "[OK] " line
  | _ => false
  end.

(** The report line [e] is about [src]. *)
Definition reports (src : string) (e : Cli.event) : Prop :=
  ∃ rest, e = Cli.Stdout ("[OK] " +:+ src +:+ rest)
          ∨ e = Cli.Stderr ("[ERROR] " +:+ src +:+ rest).

(** A call that changes the file system. *)
Definition is_change (e : Cli.event) : bool :=
  match e with
  | Cli.Mkdir _ | Cli.WriteText _ _ => true
  | _ => false
  end.

(** *** A small world for the examples *)

(** Files named by their absolute paths; a pattern without wildcards
    matches the file of that name; directories need no making and a
    write always succeeds. *)
Module Desk.

(** The last component of a path. *)
Fixpoint basename (p : string) : string :=
  match p with
  | EmptyString => EmptyString
  | String c p' => if Py.contains "/" p then basename p' else p
  end.

(** The part of a name from its last dot on. *)
Fixpoint from_last_dot (n : string) : option string :=
  match n with
  | EmptyString => None
  | String c n' =>
      match from_last_dot n' with
      | Some t => Some t
      | None => if Ascii.eqb c "." then Some n else None
      end
  end.

Definition suffix (p : string) : string :=
  match basename p with
  | EmptyString => EmptyString
  | String _ n' =>
      match from_last_dot n' with
      | Some t => if Nat.eqb (String.length t) 1 then EmptyString else t
      | None => EmptyString
      end
  end.

Definition without_suffix (p : string) : string :=
  String.substring 0 (String.length p - String.length (suffix p)) p.

Definition stem (p : string) : string := without_suffix (basename p).

Definition with_suffix (p ext : string) : string := without_suffix p +:+ ext.

Definition joinpath (d name : string) : string := d +:+ "/" +:+ name.

Definition parent (p : string) : string :=
  match Disk.dirname p with
  | EmptyString => "."
  | String "/" EmptyString => "/"
  | d => Py.drop_last d
  end.

Definition glob (w : Disk.files) (pat : string) : result (list string) :=
  Ok (if Disk.path_exists w pat then [pat] else []).

Definition os_mkdir (p : string) (w : Disk.files) : result unit * Disk.files :=
  (Ok tt, w).

Definition os_write_text (p data : string) (w : Disk.files)
    : result unit * Disk.files :=
  (Ok tt, dict_set w p data).

Definition recursion_message : string := "maximum recursion depth exceeded".

Definition compile_one : string -> string -> Cli.io Disk.files bool :=
  Cli.compile_one Disk.files PyFloat.dec_float 1000 recursion_message
    parent Disk.sibling (fun _ => Disk.resolve) Disk.path_exists
    Disk.read_text os_mkdir os_write_text.

Definition resolve_inputs : list string -> Cli.io Disk.files (list string) :=
  Cli.resolve_inputs Disk.files suffix Disk.path_exists glob.

Definition main : list string -> option string -> Cli.io Disk.files Z :=
  Cli.main Disk.files PyFloat.dec_float 1000 recursion_message
    id suffix stem parent with_suffix joinpath Disk.sibling
    (fun _ => Disk.resolve) Disk.path_exists Disk.path_exists
    Disk.read_text glob os_mkdir os_write_text.




(** Two sources, the second with a colour that cannot be read. *)
Definition two_files : Disk.files :=
  [("/w/a.qsspp", "A { }" +:+ nl);
   ("/w/b.qsspp", "B { color: lighten(#12, 10%); }" +:+ nl)].

End Desk.

(** ** Nested calls *)

(** C1.  The evaluator does not resolve a textually nested call.  Taken
    apart by hand the example would work: the inner call
    [lighten(#000000, 50%)] evaluates to [#7F7F7F], and
    [darken(#7F7F7F, 25%)] to [#5F5F5F].  Written nested, the leftmost
    match of the pattern is the outer call with the colour argument
    [lighten(#000000], everything up to the first comma, which
    [_hex_to_rgb] refuses: the first pass raises, whatever [float] does,
    and the ten passes never get to help. *)
Theorem nested_call_raises :
  _apply_functions PyFloat.dec_float "lighten(#000000, 50%)" = Ok "#7F7F7F"
  ∧ _apply_functions PyFloat.dec_float "darken(#7F7F7F, 25%)" = Ok "#5F5F5F"
  ∧ (whole <$> finditer _FUNC_RE nested_call) = ["darken(lighten(#000000, 50%)"]
  ∧ ∀ float_of_str,
      _apply_functions float_of_str nested_call
      = Raise (ValueError "Invalid color: #lighten(#000000").
Proof.
  split; [|split; [|split]].
  - vm_compute. reflexivity.
  - vm_compute. reflexivity.
  - vm_compute. reflexivity.
  - intros float_of_str. vm_compute. reflexivity.
Qed.

(** ** Substitution over a cut text *)

Lemma rbind_ok_inv {A B} (x : result A) (f : A -> result B) (b : B) :
  x ≫= f = Ok b → ∃ a, x = Ok a ∧ f a = Ok b.
Proof. destruct x as [a|e]; simpl; [eauto | discriminate]. Qed.

Lemma append_cons (x : ascii) (a b : string) :
  String x a +:+ b = String x (a +:+ b).
Proof. reflexivity. Qed.

Lemma append_nil (b : string) : EmptyString +:+ b = b.
Proof. reflexivity. Qed.

Lemma append_assoc (a b c : string) : (a +:+ b) +:+ c = a +:+ (b +:+ c).
Proof.
  induction a as [|x a IH]; [reflexivity|].
  rewrite !append_cons. f_equal. exact IH.
Qed.

Section SubState.
Context {S : Type}.
Variable repl : mobj -> S -> result (string * S).


(** Plain characters are copied and leave the state alone. *)
Lemma sub_segments_st_lits (pre : list ascii) (st : S) :
  sub_segments_st repl (Lit <$> pre) st = Ok (string_of_list_ascii pre, st).
Proof.
  induction pre as [|c pre IH]; [reflexivity|].
  rewrite fmap_cons. cbn [sub_segments_st]. by rewrite IH.
Qed.

End SubState.

Section SubResult.
Variable repl : mobj -> result string.

Lemma sub_segments_lits (pre : list ascii) :
  sub_segments repl (Lit <$> pre) = Ok (string_of_list_ascii pre).
Proof.
  induction pre as [|c pre IH]; [reflexivity|].
  rewrite fmap_cons. cbn [sub_segments]. by rewrite IH.
Qed.

Lemma sub_segments_app (l1 l2 : list segment) :
  sub_segments repl (l1 ++ l2)%list =
  (t1 ← sub_segments repl l1; t2 ← sub_segments repl l2; Ok (t1 +:+ t2)).
Proof.
  induction l1 as [|x l1 IH]; cbn [app sub_segments].
  - cbn [mbind result_bind rbind]. by destruct (sub_segments repl l2).
  - destruct x as [c|m].
    + rewrite IH. destruct (sub_segments repl l1) as [t1|e]; [|reflexivity].
      cbn [mbind result_bind rbind].
      by destruct (sub_segments repl l2).
    + destruct (repl m) as [x|e]; [|reflexivity]. cbn [mbind result_bind rbind].
      rewrite IH. destruct (sub_segments repl l1) as [t1|e]; [|reflexivity].
      cbn [mbind result_bind rbind].
      destruct (sub_segments repl l2) as [t2|e]; [|reflexivity].
      cbn [mbind result_bind rbind]. by rewrite append_assoc.
Qed.

(** A text with one match. *)
Lemma sub_result_one (r : regex) (text : string) (pre post : list ascii) m x :
  segments r text = ((Lit <$> pre) ++ Hit m :: (Lit <$> post))%list →
  repl m = Ok x →
  sub_result r repl text
  = Ok (string_of_list_ascii pre +:+ x +:+ string_of_list_ascii post).
Proof.
  intros Hs Hx. unfold sub_result. rewrite Hs, sub_segments_app, sub_segments_lits.
  cbn [sub_segments mbind result_bind rbind]. rewrite Hx, sub_segments_lits.
  reflexivity.
Qed.

(** The first match decides when its replacement raises. *)
Lemma sub_result_first_raises (r : regex) (text : string) (pre : list ascii) m post e :
  segments r text = ((Lit <$> pre) ++ Hit m :: post)%list →
  repl m = Raise e →
  sub_result r repl text = Raise e.
Proof.
  intros Hs He. unfold sub_result. rewrite Hs, sub_segments_app, sub_segments_lits.
  cbn [sub_segments mbind result_bind rbind]. by rewrite He.
Qed.

(** A text without a match. *)
Lemma sub_result_none (r : regex) (text : string) :
  segments r text = Lit <$> list_ascii_of_string text →
  sub_result r repl text = Ok text.
Proof.
  intros Hs. unfold sub_result.
  by rewrite Hs, sub_segments_lits, string_of_list_ascii_of_string.
Qed.
End SubResult.

(** ** Import resolution *)

Section ImportFacts.
Variable float_of_str : string -> option float.
Variable resolve : string -> string.
Variable sibling : string -> string -> string.
Variable path_exists : string -> bool.
Variable read_text : string -> result string.

Local Abbreviation collect := (_collect resolve sibling path_exists read_text).
Local Abbreviation importing depth source :=
  (sub_segments_st (import_repl resolve sibling path_exists (collect depth) source)).
Local Abbreviation compile := (compile_qss float_of_str resolve sibling path_exists read_text).

Lemma import_repl_unfold k source m visited :
  import_repl resolve sibling path_exists k source m visited =
  if path_exists (resolve (sibling source (group m 1)))
  then k (resolve (sibling source (group m 1))) visited
  else Raise (missing_error (resolve (sibling source (group m 1)))).
Proof. unfold import_repl. by destruct (path_exists _). Qed.

(** The guard is the first thing a call does. *)
Lemma collect_in_progress depth source visited :
  resolve source ∈ visited →
  collect (S depth) source visited = Raise (cycle_error (resolve source)).
Proof.
  intros Hin. cbn [_collect]. by rewrite bool_decide_eq_true_2.
Qed.

Lemma collect_fresh depth source visited :
  resolve source ∉ visited →
  collect (S depth) source visited =
  (text ← read_text (resolve source);
   importing depth (resolve source) (segments _IMPORT_RE text)
     ({[resolve source]} ∪ visited)).
Proof.
  intros Hout. cbn [_collect]. by rewrite bool_decide_eq_false_2.
Qed.

(** Inlining with a callback under which the set grows lets it grow. *)
Lemma import_segments_grow k source :
  (∀ child v t v', k child v = Ok (t, v') → v ⊆ v') →
  ∀ l (visited : gset string) text visited',
    sub_segments_st (import_repl resolve sibling path_exists k source) l visited
    = Ok (text, visited') →
    visited ⊆ visited'.
Proof.
  intros Hk. induction l as [|x l IHl]; intros v text v' H.
  - cbn in H. by inversion H.
  - destruct x as [c|m]; cbn [sub_segments_st] in H.
    + apply rbind_ok_inv in H as ([t v1] & H1 & H2).
      inversion H2; subst. by eapply IHl.
    + apply rbind_ok_inv in H as ([x v1] & H1 & H2).
      apply rbind_ok_inv in H2 as ([t v2] & H2 & H3).
      inversion H3; subst. rewrite import_repl_unfold in H1.
      destruct (path_exists _); [|discriminate].
      transitivity v1; [by eapply Hk | by eapply IHl].
Qed.

(** The set only grows, and a call that returns has added its document. *)
Lemma collect_grows depth :
  ∀ source visited text visited',
    collect depth source visited = Ok (text, visited') →
    (resolve source ∉ visited) ∧ ({[resolve source]} ∪ visited ⊆ visited').
Proof.
  induction depth as [|depth IH]; intros source visited text visited' H.
  - discriminate.
  - destruct (decide (resolve source ∈ visited)) as [Hin|Hout].
    + rewrite collect_in_progress in H by done. discriminate.
    + split; [done|]. rewrite collect_fresh in H by done.
      apply rbind_ok_inv in H as (tx & _ & H).
      eapply import_segments_grow; [|exact H].
      intros child v t v' Hc. destruct (IH _ _ _ _ Hc) as [_ Hsub].
      transitivity ({[resolve child]} ∪ v); [apply union_subseteq_r | done].
Qed.

Lemma importing_grows depth source l :
  ∀ visited text visited',
    importing depth source l visited = Ok (text, visited') → visited ⊆ visited'.
Proof.
  apply import_segments_grow. intros child v t v' Hc.
  destruct (collect_grows _ _ _ _ _ Hc) as [_ Hsub].
  transitivity ({[resolve child]} ∪ v); [apply union_subseteq_r | done].
Qed.






(** A root document without import statements is collected as it is. *)
Lemma collect_plain depth input doc :
  read_text (resolve (resolve input)) = Ok doc →
  segments _IMPORT_RE doc = Lit <$> list_ascii_of_string doc →
  collect (S depth) (resolve input) ∅
  = Ok (doc, {[resolve (resolve input)]} ∪ ∅).
Proof.
  intros Hread Hsegs. rewrite collect_fresh by apply not_elem_of_empty.
  rewrite Hread. cbn [mbind result_bind rbind].
  by rewrite Hsegs, sub_segments_st_lits, string_of_list_ascii_of_string.
Qed.




End ImportFacts.



(** ** Enumeration of characters and of channel values *)

Lemma in_all_ascii (c : ascii) : In c all_ascii.
Proof.
  unfold all_ascii. rewrite <- (ascii_nat_embedding c).
  apply in_map, in_seq. pose proof (nat_ascii_bounded c). lia.
Qed.

Lemma ascii_forall (f : ascii -> bool) :
  forallb f all_ascii = true → ∀ c, f c = true.
Proof.
  intros H c. rewrite forallb_forall in H. apply H, in_all_ascii.
Qed.

Lemma ascii_forall2 (f : ascii -> ascii -> bool) :
  forallb (fun a => forallb (f a) all_ascii) all_ascii = true →
  ∀ a b, f a b = true.
Proof.
  intros H a b. apply (ascii_forall (f a)).
  apply (ascii_forall (fun a => forallb (f a) all_ascii) H).
Qed.

Lemma byte_forall (f : Z -> bool) :
  forallb f all_bytes = true → ∀ n, 0 <= n <= 255 → f n = true.
Proof.
  intros H n Hn. rewrite forallb_forall in H. apply H.
  unfold all_bytes. rewrite <- (Z2Nat.id n) by lia.
  apply in_map, in_seq. lia.
Qed.

Lemma clamp255_range (n : Z) : 0 <= clamp255 n <= 255.
Proof. unfold clamp255. lia. Qed.

Lemma clamp255_id (n : Z) : 0 <= n <= 255 → clamp255 n = n.
Proof. unfold clamp255. lia. Qed.

(** ** Colour arithmetic *)

Lemma hex_digit_not_space (c : ascii) :
  is_hex_digit c = true → Py.is_space c = false.
Proof.
  intros H.
  pose proof (ascii_forall (fun c => implb (is_hex_digit c) (negb (Py.is_space c)))
                ltac:(vm_compute; reflexivity) c) as Hc.
  cbv beta in Hc. rewrite H in Hc. by destruct (Py.is_space c).
Qed.

Lemma upper_hex_digit_not_space (c : ascii) :
  is_upper_hex_digit c = true → Py.is_space c = false.
Proof.
  intros H.
  pose proof (ascii_forall
                (fun c => implb (is_upper_hex_digit c) (negb (Py.is_space c)))
                ltac:(vm_compute; reflexivity) c) as Hc.
  cbv beta in Hc. rewrite H in Hc. by destruct (Py.is_space c).
Qed.

(** A [#] and six characters, the last of them no blank: the decoder
    reads the three pairs. *)
Lemma hex_to_rgb_pairs (h1 l1 h2 l2 h3 l3 : ascii) :
  Py.is_space l3 = false →
  _hex_to_rgb (String "#" (String h1 (String l1 (String h2 (String l2
                 (String h3 (String l3 EmptyString)))))))
  = (r ← PyInt.int16 (String h1 (String l1 EmptyString));
     g ← PyInt.int16 (String h2 (String l2 EmptyString));
     b ← PyInt.int16 (String h3 (String l3 EmptyString));
     Ok (r, g, b)).
Proof.
  intros Hsp. unfold _hex_to_rgb, Py.strip, Py.strip_by.
  cbn [Py.lstrip_by]. change (Py.is_space "#") with false. cbv iota.
  cbn [Py.rstrip_by]. rewrite Hsp.
  reflexivity.
Qed.

(** A [#] and three characters: each is read twice. *)
Lemma hex_to_rgb_triple (h1 h2 h3 : ascii) :
  Py.is_space h3 = false →
  _hex_to_rgb (String "#" (String h1 (String h2 (String h3 EmptyString))))
  = (r ← PyInt.int16 (String h1 (String h1 EmptyString));
     g ← PyInt.int16 (String h2 (String h2 EmptyString));
     b ← PyInt.int16 (String h3 (String h3 EmptyString));
     Ok (r, g, b)).
Proof.
  intros Hsp. unfold _hex_to_rgb, Py.strip, Py.strip_by.
  cbn [Py.lstrip_by]. change (Py.is_space "#") with false. cbv iota.
  cbn [Py.rstrip_by]. rewrite Hsp.
  reflexivity.
Qed.

Lemma int16_of_parse16 (s : string) (n : Z) :
  PyInt.parse16 s = Some n → PyInt.int16 s = Ok n.
Proof. intros H. unfold PyInt.int16. by rewrite H. Qed.

(** What a pair of hexadecimal digits stands for. *)
Lemma hex_pair_value (h l : ascii) :
  is_hex_digit h = true → is_hex_digit l = true →
  ∃ n, PyInt.int16 (String h (String l EmptyString)) = Ok n
       ∧ 0 <= n <= 255
       ∧ PyInt.format_02X n = String (upper_char h) (String (upper_char l) EmptyString).
Proof.
  intros Hh Hl.
  pose (check := fun h l : ascii =>
    implb (is_hex_digit h && is_hex_digit l)
      match PyInt.parse16 (String h (String l EmptyString)) with
      | Some n =>
          (0 <=? n) && (n <=? 255)
          && String.eqb (PyInt.format_02X n)
               (String (upper_char h) (String (upper_char l) EmptyString))
      | None => false
      end).
  pose proof (ascii_forall2 check ltac:(vm_compute; reflexivity) h l) as Hc.
  unfold check in Hc. rewrite Hh, Hl in Hc. cbn [andb implb] in Hc.
  destruct (PyInt.parse16 _) as [n|] eqn:Hp; [|discriminate].
  exists n. apply andb_prop in Hc as [Hc Hfmt]. apply andb_prop in Hc as [H0 H255].
  split; [by apply int16_of_parse16|]. split; [lia|].
  by apply String.eqb_eq.
Qed.

(** The field [{:02X}] of a channel value: two upper-case digits that
    read back as the value. *)
Lemma format_02X_byte (n : Z) :
  0 <= n <= 255 →
  ∃ h l, PyInt.format_02X n = String h (String l EmptyString)
         ∧ is_upper_hex_digit h = true ∧ is_upper_hex_digit l = true
         ∧ PyInt.int16 (String h (String l EmptyString)) = Ok n.
Proof.
  intros Hn.
  pose (check := fun n : Z =>
    match PyInt.format_02X n with
    | String h (String l EmptyString) =>
        is_upper_hex_digit h && is_upper_hex_digit l
        && match PyInt.parse16 (String h (String l EmptyString)) with
           | Some m => m =? n
           | None => false
           end
    | _ => false
    end).
  pose proof (byte_forall check ltac:(vm_compute; reflexivity) n Hn) as Hc.
  unfold check in Hc.
  destruct (PyInt.format_02X n) as [|h [|l [|]]]; try discriminate.
  exists h, l. apply andb_prop in Hc as [Hc Hp]. apply andb_prop in Hc as [Hh Hl].
  repeat split; try done.
  destruct (PyInt.parse16 _) as [m|] eqn:Hm; [|discriminate].
  apply int16_of_parse16. rewrite Hm. f_equal. lia.
Qed.

(** A colour written [#RGB] or [#RRGGBB] decodes, to channels in
    [0, 255]. *)
Lemma well_formed_color_decodes (c : string) :
  well_formed_color c = true →
  ∃ r g b, _hex_to_rgb c = Ok (r, g, b)
           ∧ 0 <= r <= 255 ∧ 0 <= g <= 255 ∧ 0 <= b <= 255.
Proof.
  intros Hc. destruct c as [|c0 s]; [discriminate|].
  assert (c0 = "#"%char) as ->.
  { destruct c0 as [[] [] [] [] [] [] [] []]; try discriminate. reflexivity. }
  cbn [well_formed_color] in Hc. apply andb_prop in Hc as [Hlen Hhex].
  destruct s as [|h1 [|h2 [|h3 [|h4 [|h5 [|h6 [|]]]]]]]; try discriminate.
  - cbn [all_chars] in Hhex. repeat (apply andb_prop in Hhex as [? Hhex]).
    destruct (hex_pair_value h1 h1) as (r & Hr & Hr255 & _); try done.
    destruct (hex_pair_value h2 h2) as (g & Hg & Hg255 & _); try done.
    destruct (hex_pair_value h3 h3) as (b & Hb & Hb255 & _); try done.
    exists r, g, b. split; [|done].
    rewrite hex_to_rgb_triple by by apply hex_digit_not_space.
    by rewrite Hr, Hg, Hb.
  - cbn [all_chars] in Hhex. repeat (apply andb_prop in Hhex as [? Hhex]).
    destruct (hex_pair_value h1 h2) as (r & Hr & Hr255 & _); try done.
    destruct (hex_pair_value h3 h4) as (g & Hg & Hg255 & _); try done.
    destruct (hex_pair_value h5 h6) as (b & Hb & Hb255 & _); try done.
    exists r, g, b. split; [|done].
    rewrite hex_to_rgb_pairs by by apply hex_digit_not_space.
    by rewrite Hr, Hg, Hb.
Qed.

(** Decoding what [_rgb_to_hex] wrote gives the clamped channels. *)
Lemma hex_to_rgb_of_rgb_to_hex (r g b : Z) :
  _hex_to_rgb (_rgb_to_hex r g b) = Ok (clamp255 r, clamp255 g, clamp255 b).
Proof.
  unfold _rgb_to_hex.
  destruct (format_02X_byte _ (clamp255_range r)) as (h1 & l1 & -> & _ & _ & H1).
  destruct (format_02X_byte _ (clamp255_range g)) as (h2 & l2 & -> & _ & _ & H2).
  destruct (format_02X_byte _ (clamp255_range b)) as (h3 & l3 & -> & _ & Hl3 & H3).
  change ("#" +:+ String h1 (String l1 EmptyString)
              +:+ String h2 (String l2 EmptyString)
              +:+ String h3 (String l3 EmptyString))
    with (String "#" (String h1 (String l1 (String h2 (String l2
            (String h3 (String l3 EmptyString))))))).
  rewrite hex_to_rgb_pairs by by apply upper_hex_digit_not_space.
  by rewrite H1, H2, H3.
Qed.

(** With the fraction [0 / 100] a channel comes back as it went in. *)
Lemma lighten_channel_zero (n : Z) :
  0 <= n <= 255 → lighten_channel n (0 / 100)%float = Ok n.
Proof.
  intros Hn.
  pose (check := fun n : Z =>
    match lighten_channel n (0 / 100)%float with
    | Ok m => m =? n
    | Raise _ => false
    end).
  pose proof (byte_forall check ltac:(vm_compute; reflexivity) n Hn) as Hc.
  unfold check in Hc. destruct (lighten_channel n _) as [m|]; [|discriminate].
  f_equal. lia.
Qed.

Lemma darken_channel_zero (n : Z) :
  0 <= n <= 255 → darken_channel n (0 / 100)%float = Ok n.
Proof.
  intros Hn.
  pose (check := fun n : Z =>
    match darken_channel n (0 / 100)%float with
    | Ok m => m =? n
    | Raise _ => false
    end).
  pose proof (byte_forall check ltac:(vm_compute; reflexivity) n Hn) as Hc.
  unfold check in Hc. destruct (darken_channel n _) as [m|]; [|discriminate].
  f_equal. lia.
Qed.

(** With a whole percentage from 0 to 100 a channel in [0, 255] stays
    there: [lighten] moves it up, [darken] down, and both truncations
    return. *)
Lemma whole_percent_channels (n c : Z) :
  0 <= n <= 100 → 0 <= c <= 255 →
  ∃ l d,
    lighten_channel c (PyFloat.of_int n / 100)%float = Ok l ∧ c <= l <= 255
    ∧ darken_channel c (PyFloat.of_int n / 100)%float = Ok d ∧ 0 <= d <= c.
Proof.
  intros Hn Hc.
  pose (check := fun n c : Z =>
    match lighten_channel c (PyFloat.of_int n / 100)%float,
          darken_channel c (PyFloat.of_int n / 100)%float with
    | Ok l, Ok d => (c <=? l) && (l <=? 255) && (0 <=? d) && (d <=? c)
    | _, _ => false
    end).
  pose (row := fun n : Z => (100 <? n) || forallb (check n) all_bytes).
  pose proof (byte_forall row ltac:(vm_compute; reflexivity) n ltac:(lia)) as Hrow.
  unfold row in Hrow. apply orb_prop in Hrow as [Hbig|Hrow];
    [apply Z.ltb_lt in Hbig; lia|].
  pose proof (byte_forall (check n) Hrow c Hc) as Hck. unfold check in Hck.
  destruct (lighten_channel c _) as [l|]; [|discriminate].
  destruct (darken_channel c _) as [d|]; [|discriminate].
  exists l, d. repeat (apply andb_prop in Hck as [Hck ?]). repeat split; lia.
Qed.

(** [int(x)] returns for the zeros and the finite numbers, and for them
    only. *)
Lemma trunc_outcome (x : float) :
  match Prim2SF x with
  | S754_infinity _ => PyFloat.trunc x = Raise (OverflowError PyFloat.inf_msg)
  | S754_nan => PyFloat.trunc x = Raise (ValueError PyFloat.nan_msg)
  | _ => ∃ n, PyFloat.trunc x = Ok n
  end.
Proof. unfold PyFloat.trunc. destruct (Prim2SF x); by eauto. Qed.

(** ** Floats in the unit interval *)

Lemma digits2_pos_lower (p : positive) : 2 ^ (Z.pos (digits2_pos p) - 1) <= Z.pos p.
Proof.
  induction p as [p IH|p IH|]; cbn [digits2_pos].
  - rewrite Pos2Z.inj_succ. replace (Z.succ (Z.pos (digits2_pos p)) - 1) with (Z.succ (Z.pos (digits2_pos p) - 1)) by lia.
    rewrite Z.pow_succ_r by lia. lia.
  - rewrite Pos2Z.inj_succ. replace (Z.succ (Z.pos (digits2_pos p)) - 1) with (Z.succ (Z.pos (digits2_pos p) - 1)) by lia.
    rewrite Z.pow_succ_r by lia. lia.
  - simpl. lia.
Qed.

Lemma digits2_pos_upper (p : positive) : Z.pos p < 2 ^ Z.pos (digits2_pos p).
Proof.
  induction p as [p IH|p IH|]; cbn [digits2_pos].
  - rewrite Pos2Z.inj_succ, Z.pow_succ_r by lia. lia.
  - rewrite Pos2Z.inj_succ, Z.pow_succ_r by lia. lia.
  - simpl. lia.
Qed.

Lemma Zdigits2_le (m k : Z) : 0 <= m < 2 ^ k → 0 <= k → Zdigits2 m <= k.
Proof.
  intros [H0 Hm] Hk. destruct m as [|p|p]; [simpl; lia| |lia].
  simpl. pose proof (digits2_pos_lower p) as Hl.
  destruct (Z_le_gt_dec (Z.pos (digits2_pos p)) k) as [|Hgt]; [done|].
  assert (2 ^ k <= 2 ^ (Z.pos (digits2_pos p) - 1)) by (apply Z.pow_le_mono_r; lia).
  lia.
Qed.

Lemma shr_1_bounds mrs : 0 <= shr_m mrs → 0 <= shr_m (shr_1 mrs) <= shr_m mrs.
Proof.
  destruct mrs as [m r s]. simpl. intros H.
  destruct m as [|[p|p|]|p]; simpl; lia.
Qed.

Lemma iter_shr_1_bounds (p : positive) : ∀ mrs,
  0 <= shr_m mrs → 0 <= shr_m (SpecFloat.iter_pos shr_1 p mrs) <= shr_m mrs.
Proof.
  induction p as [p IH|p IH|]; intros mrs H; cbn [SpecFloat.iter_pos].
  - pose proof (shr_1_bounds mrs H) as H1.
    pose proof (IH _ (proj1 H1)) as H2.
    pose proof (IH _ (proj1 H2)) as H3. lia.
  - pose proof (IH _ H) as H2.
    pose proof (IH _ (proj1 H2)) as H3. lia.
  - by apply shr_1_bounds.
Qed.

Lemma shr_fexp_bounds prec emax m e l :
  0 <= m →
  let '(mrs, e') := shr_fexp prec emax m e l in
  0 <= shr_m mrs <= m ∧ e' = Z.max e (fexp prec emax (Zdigits2 m + e)).
Proof.
  intros Hm. unfold shr_fexp, shr.
  assert (Hrec : shr_m (shr_record_of_loc m l) = m) by (by destruct l as [|[]]).
  destruct (fexp prec emax (Zdigits2 m + e) - e) as [|p|p] eqn:Hd.
  - rewrite Hrec. lia.
  - pose proof (iter_shr_1_bounds p (shr_record_of_loc m l)) as Hb.
    rewrite Hrec in Hb. split; [by apply Hb|]. lia.
  - rewrite Hrec. lia.
Qed.

Lemma round_nearest_even_bounds m l : 0 <= m → 0 <= round_nearest_even m l <= m + 1.
Proof. intros H. unfold round_nearest_even. destruct l as [|[]]; try lia. destruct (Z.even m); lia. Qed.

(** Rounding a mantissa and an exponent that are small enough gives a
    zero or a finite number, of the sign asked for. *)
Lemma binary_round_aux_finite s m e k :
  0 <= m < 2 ^ k → 0 <= k <= 200 → e + 2 * k <= 1000 → e <= 971 →
  match binary_round_aux prec emax s m e loc_Exact with
  | S754_zero s' | S754_finite s' _ _ => s' = s
  | _ => False
  end.
Proof.
  intros Hm Hk He1 He2. unfold binary_round_aux.
  pose proof (shr_fexp_bounds prec emax m e loc_Exact (proj1 Hm)) as H1.
  destruct (shr_fexp prec emax m e loc_Exact) as [mrs' e'].
  destruct H1 as [Hm' He'].
  pose proof (round_nearest_even_bounds (shr_m mrs') (loc_of_shr_record mrs') (proj1 Hm')) as Hr.
  set (m2 := round_nearest_even _ _) in *.
  pose proof (shr_fexp_bounds prec emax m2 e' loc_Exact (proj1 Hr)) as H2.
  destruct (shr_fexp prec emax m2 e' loc_Exact) as [mrs'' e''].
  destruct H2 as [Hm'' He''].
  assert (Hd1 : Zdigits2 m <= k) by (apply Zdigits2_le; lia).
  assert (Hd2 : Zdigits2 m2 <= k + 1).
  { apply Zdigits2_le; [|lia]. rewrite Z.pow_add_r by lia. lia. }
  unfold fexp, emin, prec, emax in *.
  destruct (shr_m mrs'') as [|p|p]; [done| |lia].
  destruct (e'' <=? 1024 - 53) eqn:Hle; [done|].
  apply Z.leb_gt in Hle. change IntDef.Z.max with Z.max in *. lia.
Qed.

Lemma valid_mantissa_bound m e :
  valid_binary (S754_finite false m e) = true → Z.pos m < 2 ^ 53.
Proof.
  unfold valid_binary. cbn [SpecFloat.valid_binary]. unfold bounded, canonical_mantissa, fexp, emin, prec, emax.
  intros H. apply andb_prop in H as [H _]. apply Z.eqb_eq in H.
  pose proof (digits2_pos_upper m) as Hu.
  assert (Z.pos (digits2_pos m) <= 53) by lia.
  assert (2 ^ Z.pos (digits2_pos m) <= 2 ^ 53) by (apply Z.pow_le_mono_r; lia).
  lia.
Qed.

(** A float in [0, 1] times 255 is zero or a positive finite number. *)
Lemma unit_times_255_finite (f : float) :
  in_unit f = true →
  match Prim2SF (f * PyFloat.of_int 255)%float with
  | S754_zero _ => True
  | S754_finite s _ _ => s = false
  | _ => False
  end.
Proof.
  unfold in_unit.
  change (PyFloat.of_int 0) with 0%float. change (PyFloat.of_int 1) with 1%float.
  change (PyFloat.of_int 255) with 255%float.
  intros H. apply andb_prop in H as [H0 H1].
  rewrite FloatAxioms.leb_spec in H0, H1. rewrite FloatAxioms.mul_spec.
  pose proof (Prim2SF_valid f) as Hv.
  change (Prim2SF 0) with (S754_zero false) in H0.
  change (Prim2SF 1) with (S754_finite false 4503599627370496 (-52)) in H1.
  change (Prim2SF 255) with (S754_finite false 8972014882652160 (-45)).
  destruct (Prim2SF f) as [s|s| |s m e].
  - done.
  - destruct s; discriminate.
  - discriminate.
  - destruct s; [discriminate|].
    assert (He : e <= -52).
    { unfold SFleb, SFcompare in H1. destruct (e ?= -52) eqn:Hc; try discriminate.
      - apply Z.compare_eq in Hc. lia.
      - rewrite Z.compare_lt_iff in Hc. lia. }
    unfold SF64mul, SFmul. cbn [xorb].
    pose proof (binary_round_aux_finite false
                  (Z.pos (m * 8972014882652160)) (e + -45) 106) as Hfin.
    destruct (binary_round_aux prec emax false _ _ loc_Exact);
      try (apply Hfin; clear Hfin); try lia.
    all: pose proof (valid_mantissa_bound m e Hv) as Hm; split; [lia|].
    all: rewrite Pos2Z.inj_mul; change (2 ^ 106) with (2 ^ 53 * 2 ^ 53).
    all: apply Z.mul_lt_mono_nonneg; lia.
Qed.

(** Hence [round] of it is an integer, and not a negative one. *)
Lemma round_unit_times_255 (f : float) :
  in_unit f = true →
  ∃ A, PyFloat.round (f * PyFloat.of_int 255)%float = Ok A ∧ 0 <= A.
Proof.
  intros H. pose proof (unit_times_255_finite f H) as Hfin.
  unfold PyFloat.round. destruct (Prim2SF _) as [s|s| |s m e]; try done.
  - exists 0. split; [reflexivity | lia].
  - subst s. destruct (0 <=? e) eqn:He.
    + eexists. split; [reflexivity|]. cbn [PyFloat.signed].
      apply Z.leb_le in He. apply Z.mul_nonneg_nonneg; [lia|]. by apply Z.pow_nonneg.
    + eexists. split; [reflexivity|]. cbn [PyFloat.signed].
      apply Z.leb_gt in He.
      assert (0 < 2 ^ (- e)) by (apply Z.pow_pos_nonneg; lia).
      assert (0 <= Z.pos m / 2 ^ (- e)) by (apply Z.div_pos; lia).
      destruct (2 * (Z.pos m mod 2 ^ (- e)) ?= 2 ^ (- e)); try lia.
      destruct (Z.odd _); lia.
Qed.

Section ColourFacts.
Variable float_of_str : string -> option float.

Local Abbreviation parse := (_parse_percent_or_float float_of_str).

Lemma parse_percent (s : string) (x : float) :
  Py.endswith "%" (Py.strip s) = true →
  float_of_str (Py.drop_last (Py.strip s)) = Some x →
  parse s = Ok (x / 100)%float.
Proof.
  intros He Hx. unfold _parse_percent_or_float, py_float. by rewrite He, Hx.
Qed.

Lemma parse_plain (s : string) (x : float) :
  Py.endswith "%" (Py.strip s) = false →
  float_of_str (Py.strip s) = Some x →
  parse s = Ok x.
Proof.
  intros He Hx. unfold _parse_percent_or_float, py_float. by rewrite He, Hx.
Qed.

Lemma lighten_unfold c amt r g b f :
  _hex_to_rgb c = Ok (r, g, b) → parse amt = Ok f →
  _lighten float_of_str c amt =
  (r' ← lighten_channel r f; g' ← lighten_channel g f; b' ← lighten_channel b f;
   Ok (_rgb_to_hex r' g' b')).
Proof. intros Hc Hf. unfold _lighten. by rewrite Hc, Hf. Qed.

Lemma darken_unfold c amt r g b f :
  _hex_to_rgb c = Ok (r, g, b) → parse amt = Ok f →
  _darken float_of_str c amt =
  (r' ← darken_channel r f; g' ← darken_channel g f; b' ← darken_channel b f;
   Ok (_rgb_to_hex r' g' b')).
Proof. intros Hc Hf. unfold _darken. by rewrite Hc, Hf. Qed.

(** Both branches of [_alpha] compute the same number. *)
Lemma alpha_unfold c a r g b f :
  _hex_to_rgb c = Ok (r, g, b) → parse a = Ok f →
  _alpha float_of_str c a =
  (alpha_255 ← PyFloat.round (f * PyFloat.of_int 255)%float;
   Ok (rgba r g b alpha_255)).
Proof.
  intros Hc Hf. unfold _alpha. rewrite Hc, Hf. cbn [mbind result_bind rbind].
  by destruct (in_unit f).
Qed.

(** C7, as the code has it.  [lighten] and [darken].  A colour written
    [#RGB] or [#RRGGBB] is read by [_hex_to_rgb] as three channels in
    [0, 255].  For a colour that [_hex_to_rgb] reads as [(r, g, b)] and an
    amount parsed as [f], whatever [f] is:
    - [_lighten] is the three truncations [int(c + (255 - c) * f)], in
      the order red, green, blue, followed by [#] and the [{:02X}] fields
      of the three results clamped to [0, 255]; the first truncation
      that raises ends the call with its error; [_darken] does the same
      with [int(c * (1 - f))];
    - a truncation returns when its operand is a zero or a finite
      number; it raises [OverflowError] on an infinity and [ValueError]
      on a NaN;
    - with a whole percentage from 0 to 100 every truncation returns and
      a channel in [0, 255] stays there, moved up by [lighten] and down
      by [darken];
    - a clamped channel lies in [0, 255];
    - its field is two upper-case hexadecimal digits that read back as
      the channel, so the output decodes to the clamped channels. *)
Theorem lighten_darken_channels :
  (∀ c, well_formed_color c = true →
        ∃ r g b, _hex_to_rgb c = Ok (r, g, b)
                 ∧ 0 <= r <= 255 ∧ 0 <= g <= 255 ∧ 0 <= b <= 255)
  ∧ (∀ c amt r g b f,
       _hex_to_rgb c = Ok (r, g, b) → parse amt = Ok f →
       _lighten float_of_str c amt
       = (r' ← PyFloat.trunc (PyFloat.of_int r + PyFloat.of_int (255 - r) * f)%float;
          g' ← PyFloat.trunc (PyFloat.of_int g + PyFloat.of_int (255 - g) * f)%float;
          b' ← PyFloat.trunc (PyFloat.of_int b + PyFloat.of_int (255 - b) * f)%float;
          Ok ("#" +:+ PyInt.format_02X (Z.max 0 (Z.min 255 r'))
                  +:+ PyInt.format_02X (Z.max 0 (Z.min 255 g'))
                  +:+ PyInt.format_02X (Z.max 0 (Z.min 255 b'))))
       ∧ _darken float_of_str c amt
         = (r' ← PyFloat.trunc (PyFloat.of_int r * (PyFloat.of_int 1 - f))%float;
            g' ← PyFloat.trunc (PyFloat.of_int g * (PyFloat.of_int 1 - f))%float;
            b' ← PyFloat.trunc (PyFloat.of_int b * (PyFloat.of_int 1 - f))%float;
            Ok ("#" +:+ PyInt.format_02X (Z.max 0 (Z.min 255 r'))
                    +:+ PyInt.format_02X (Z.max 0 (Z.min 255 g'))
                    +:+ PyInt.format_02X (Z.max 0 (Z.min 255 b')))))
  ∧ (∀ x,
       match Prim2SF x with
       | S754_infinity _ => PyFloat.trunc x = Raise (OverflowError PyFloat.inf_msg)
       | S754_nan => PyFloat.trunc x = Raise (ValueError PyFloat.nan_msg)
       | _ => ∃ n, PyFloat.trunc x = Ok n
       end)
  ∧ (∀ n c,
       0 <= n <= 100 → 0 <= c <= 255 →
       ∃ l d,
         PyFloat.trunc (PyFloat.of_int c
                        + PyFloat.of_int (255 - c) * (PyFloat.of_int n / 100))%float
         = Ok l
         ∧ c <= l <= 255
         ∧ PyFloat.trunc (PyFloat.of_int c
                          * (PyFloat.of_int 1 - PyFloat.of_int n / 100))%float
           = Ok d
         ∧ 0 <= d <= c)
  ∧ (∀ n, 0 <= Z.max 0 (Z.min 255 n) <= 255
          ∧ ∃ h l, PyInt.format_02X (Z.max 0 (Z.min 255 n))
                   = String h (String l EmptyString)
                   ∧ is_upper_hex_digit h = true ∧ is_upper_hex_digit l = true
                   ∧ PyInt.int16 (String h (String l EmptyString))
                     = Ok (Z.max 0 (Z.min 255 n)))
  ∧ (∀ r' g' b',
       _hex_to_rgb (_rgb_to_hex r' g' b')
       = Ok (Z.max 0 (Z.min 255 r'), Z.max 0 (Z.min 255 g'), Z.max 0 (Z.min 255 b'))).
Proof.
  split; [apply well_formed_color_decodes|].
  split; [|split; [|split; [|split]]].
  - intros c amt r g b f Hc Hf. split.
    + by rewrite (lighten_unfold _ _ _ _ _ _ Hc Hf).
    + by rewrite (darken_unfold _ _ _ _ _ _ Hc Hf).
  - apply trunc_outcome.
  - apply whole_percent_channels.
  - intros n. split; [apply clamp255_range|]. apply format_02X_byte, clamp255_range.
  - apply hex_to_rgb_of_rgb_to_hex.
Qed.

(** C8.  With the amount [0%], [float] reading [0] as zero, [lighten] and
    [darken] return a colour written [#RRGGBB] unchanged but for its
    letters, which come back in upper case. *)
Theorem zero_percent_identity :
  ∀ c,
    is_hex6 c = true → float_of_str "0" = Some 0%float →
    _lighten float_of_str c "0%" = Ok (upper c)
    ∧ _darken float_of_str c "0%" = Ok (upper c).
Proof.
  intros c Hc Hzero.
  destruct c as [|c0 [|h1 [|l1 [|h2 [|l2 [|h3 [|l3 [|]]]]]]]]; try discriminate;
    try (destruct c0 as [[] [] [] [] [] [] [] []]; discriminate).
  assert (c0 = "#"%char) as ->.
  { destruct c0 as [[] [] [] [] [] [] [] []]; try discriminate. reflexivity. }
  cbn [is_hex6 String.length Nat.eqb all_chars andb] in Hc.
  repeat (apply andb_prop in Hc as [? Hc]).
  destruct (hex_pair_value h1 l1) as (r & Hr & Hr255 & Hfr); try done.
  destruct (hex_pair_value h2 l2) as (g & Hg & Hg255 & Hfg); try done.
  destruct (hex_pair_value h3 l3) as (b & Hb & Hb255 & Hfb); try done.
  assert (Hrgb : _hex_to_rgb (String "#" (String h1 (String l1 (String h2 (String l2
                    (String h3 (String l3 EmptyString))))))) = Ok (r, g, b)).
  { rewrite hex_to_rgb_pairs by by apply hex_digit_not_space.
    by rewrite Hr, Hg, Hb. }
  assert (Hf : parse "0%" = Ok (0 / 100)%float).
  { apply parse_percent; [vm_compute; reflexivity|]. exact Hzero. }
  assert (Hout : _rgb_to_hex r g b
                 = upper (String "#" (String h1 (String l1 (String h2 (String l2
                            (String h3 (String l3 EmptyString)))))))).
  { unfold _rgb_to_hex. rewrite !clamp255_id by done. rewrite Hfr, Hfg, Hfb.
    reflexivity. }
  split.
  - rewrite (lighten_unfold _ _ _ _ _ _ Hrgb Hf).
    rewrite !lighten_channel_zero by done. cbn [mbind result_bind rbind].
    by rewrite Hout.
  - rewrite (darken_unfold _ _ _ _ _ _ Hrgb Hf).
    rewrite !darken_channel_zero by done. cbn [mbind result_bind rbind].
    by rewrite Hout.
Qed.

Lemma repl_lighten m :
  Py.lower (group m 1) = "lighten" →
  repl float_of_str m
  = _lighten float_of_str (Py.strip (group m 2)) (Py.strip (group m 3)).
Proof. intros H. unfold repl. by rewrite H. Qed.

Lemma repl_darken m :
  Py.lower (group m 1) = "darken" →
  repl float_of_str m
  = _darken float_of_str (Py.strip (group m 2)) (Py.strip (group m 3)).
Proof. intros H. unfold repl. by rewrite H. Qed.

Lemma repl_alpha m :
  Py.lower (group m 1) = "alpha" →
  repl float_of_str m
  = _alpha float_of_str (Py.strip (group m 2)) (Py.strip (group m 3)).
Proof. intros H. unfold repl. by rewrite H. Qed.

(** An exception of the first pass is the outcome. *)
Lemma apply_functions_raises text e :
  sub_result _FUNC_RE (repl float_of_str) text = Raise e →
  _apply_functions float_of_str text = Raise e.
Proof. intros H. unfold _apply_functions. cbn [apply_passes]. by rewrite H. Qed.

(** A first pass whose result holds no call is the outcome. *)
Lemma apply_functions_settled text out :
  sub_result _FUNC_RE (repl float_of_str) text = Ok out →
  segments _FUNC_RE out = Lit <$> list_ascii_of_string out →
  _apply_functions float_of_str text = Ok out.
Proof.
  intros H Hout. unfold _apply_functions. cbn [apply_passes].
  rewrite H. cbn [mbind result_bind rbind].
  destruct (String.eqb out text) eqn:E.
  - apply String.eqb_eq in E. by subst.
  - rewrite (sub_result_none _ _ _ Hout). cbn [mbind result_bind rbind].
    by rewrite String.eqb_refl.
Qed.

(** C6.  [alpha] with an amount in the unit interval.  A colour written
    [#RGB] or [#RRGGBB] is read by [_hex_to_rgb] as three channels in
    [0, 255].  For a colour that
    [_hex_to_rgb] reads as [(r, g, b)] and an amount [a] parsed as [f] with
    [0 <= f <= 1], [round(f * 255)] is an integer [A], not negative, and
    [_alpha] returns the text [rgba(r, g, b, A)] with the four numbers in
    decimal.  In particular [alpha(#FF0000, 50%)] is
    [rgba(255, 0, 0, 128)] and [alpha(#00FF00, 1)] is
    [rgba(0, 255, 0, 255)], [float] reading [50] and [1] as what they
    are. *)
Theorem alpha_in_unit_interval :
  (∀ c, well_formed_color c = true →
        ∃ r g b, _hex_to_rgb c = Ok (r, g, b)
                 ∧ 0 <= r <= 255 ∧ 0 <= g <= 255 ∧ 0 <= b <= 255)
  ∧ (∀ c a r g b f,
     _hex_to_rgb c = Ok (r, g, b) → parse a = Ok f → in_unit f = true →
     ∃ A, PyFloat.round (f * PyFloat.of_int 255)%float = Ok A ∧ 0 <= A
          ∧ _alpha float_of_str c a
            = Ok ("rgba(" +:+ PyInt.to_dec r +:+ ", " +:+ PyInt.to_dec g +:+ ", "
                          +:+ PyInt.to_dec b +:+ ", " +:+ PyInt.to_dec A +:+ ")"))
  ∧ (float_of_str "50" = Some 50%float →
     _alpha float_of_str "#FF0000" "50%" = Ok "rgba(255, 0, 0, 128)"
     ∧ _apply_functions float_of_str "alpha(#FF0000, 50%)"
       = Ok "rgba(255, 0, 0, 128)")
  ∧ (float_of_str "1" = Some 1%float →
     _alpha float_of_str "#00FF00" "1" = Ok "rgba(0, 255, 0, 255)"
     ∧ _apply_functions float_of_str "alpha(#00FF00, 1)"
       = Ok "rgba(0, 255, 0, 255)").
Proof.
  split; [apply well_formed_color_decodes|]. split; [|split].
  - intros c a r g b f Hc Hf Hunit.
    destruct (round_unit_times_255 f Hunit) as (A & HA & H0).
    exists A. split; [done|]. split; [done|].
    rewrite (alpha_unfold _ _ _ _ _ _ Hc Hf), HA. reflexivity.
  - intros H50.
    assert (Ha : _alpha float_of_str "#FF0000" "50%" = Ok "rgba(255, 0, 0, 128)").
    { rewrite (alpha_unfold "#FF0000" "50%" 255 0 0 (50 / 100)%float).
      - vm_compute. reflexivity.
      - vm_compute. reflexivity.
      - apply parse_percent; [vm_compute; reflexivity | exact H50]. }
    split; [exact Ha|].
    apply apply_functions_settled; [|vm_compute; reflexivity].
    rewrite (sub_result_one _ _ "alpha(#FF0000, 50%)" [] []
               {| whole := "alpha(#FF0000, 50%)";
                  groups := [(3%nat, "50%"); (2%nat, "#FF0000"); (1%nat, "alpha")] |}
               "rgba(255, 0, 0, 128)").
    + vm_compute. reflexivity.
    + vm_compute. reflexivity.
    + rewrite repl_alpha by (vm_compute; reflexivity). exact Ha.
  - intros H1.
    assert (Ha : _alpha float_of_str "#00FF00" "1" = Ok "rgba(0, 255, 0, 255)").
    { rewrite (alpha_unfold "#00FF00" "1" 0 255 0 1%float).
      - vm_compute. reflexivity.
      - vm_compute. reflexivity.
      - apply parse_plain; [vm_compute; reflexivity | exact H1]. }
    split; [exact Ha|].
    apply apply_functions_settled; [|vm_compute; reflexivity].
    rewrite (sub_result_one _ _ "alpha(#00FF00, 1)" [] []
               {| whole := "alpha(#00FF00, 1)";
                  groups := [(3%nat, "1"); (2%nat, "#00FF00"); (1%nat, "alpha")] |}
               "rgba(0, 255, 0, 255)").
    + vm_compute. reflexivity.
    + vm_compute. reflexivity.
    + rewrite repl_alpha by (vm_compute; reflexivity). exact Ha.
Qed.


Lemma hex_to_rgb_wrong_length c :
  String.length (color_digits c) ≠ 6%nat →
  _hex_to_rgb c = Raise (invalid_color c).
Proof.
  intros H. unfold _hex_to_rgb, invalid_color. fold (color_digits c).
  destruct (Nat.eqb (String.length (color_digits c)) 6) eqn:E; [|reflexivity].
  apply Nat.eqb_eq in E. contradiction.
Qed.


End ColourFacts.

Lemma lighten_darken_channels_witness :
  (∃ r g b, _hex_to_rgb "#369" = Ok (r, g, b)
            ∧ 0 <= r <= 255 ∧ 0 <= g <= 255 ∧ 0 <= b <= 255)
  ∧ _lighten PyFloat.dec_float "#336699" "10%" = Ok "#4775A3"
  ∧ _darken PyFloat.dec_float "#336699" "10%" = Ok "#2D5B89".
Proof.
  split.
  { apply (proj1 (lighten_darken_channels PyFloat.dec_float) "#369").
    vm_compute. reflexivity. }
  destruct (proj1 (proj2 (lighten_darken_channels PyFloat.dec_float))
              "#336699" "10%" 51 102 153 (10 / 100)%float) as (Hl & Hd).
  - vm_compute. reflexivity.
  - vm_compute. reflexivity.
  - rewrite Hl, Hd. split; vm_compute; reflexivity.
Defined.

(** C7, as it is worded, fails: not every parsed fraction gives channels
    to clamp.  With the fraction [inf], which [float] reads, a channel
    becomes an infinity or a NaN and [int] raises; so it does with the
    finite fraction [2^1023], the product overflowing. *)
Lemma lighten_darken_overflow :
  well_formed_color "#000000" = true
  ∧ _parse_percent_or_float literal_float "inf" = Ok infinity
  ∧ _lighten literal_float "#000000" "inf" = Raise (OverflowError PyFloat.inf_msg)
  ∧ _lighten literal_float "#FFFFFF" "inf" = Raise (ValueError PyFloat.nan_msg)
  ∧ _darken literal_float "#FFFFFF" "inf" = Raise (OverflowError PyFloat.inf_msg)
  ∧ _apply_functions literal_float "lighten(#000000, inf)"
    = Raise (OverflowError PyFloat.inf_msg)
  ∧ lighten_channel 0 0x1p1023%float = Raise (OverflowError PyFloat.inf_msg).
Proof. repeat split; vm_compute; reflexivity. Qed.

Lemma zero_percent_identity_witness :
  _lighten PyFloat.dec_float "#abCdeF" "0%" = Ok "#ABCDEF"
  ∧ _darken PyFloat.dec_float "#abCdeF" "0%" = Ok "#ABCDEF".
Proof.
  apply (zero_percent_identity PyFloat.dec_float "#abCdeF").
  - vm_compute. reflexivity.
  - vm_compute. reflexivity.
Defined.

Lemma alpha_in_unit_interval_witness :
  (∃ r g b, _hex_to_rgb "#F00" = Ok (r, g, b)
            ∧ 0 <= r <= 255 ∧ 0 <= g <= 255 ∧ 0 <= b <= 255)
  ∧ (∃ A, PyFloat.round (50 / 100 * PyFloat.of_int 255)%float = Ok A ∧ 0 <= A
        ∧ _alpha PyFloat.dec_float "#FF0000" "50%"
          = Ok ("rgba(" +:+ "255" +:+ ", " +:+ "0" +:+ ", " +:+ "0" +:+ ", "
                        +:+ PyInt.to_dec A +:+ ")"))
  ∧ _apply_functions PyFloat.dec_float "alpha(#FF0000, 50%)"
    = Ok "rgba(255, 0, 0, 128)"
  ∧ _apply_functions PyFloat.dec_float "alpha(#00FF00, 1)"
    = Ok "rgba(0, 255, 0, 255)".
Proof.
  destruct (alpha_in_unit_interval PyFloat.dec_float) as (Hwf & Hgen & H50 & H1).
  split; [|split; [|split]].
  - apply (Hwf "#F00"). vm_compute. reflexivity.
  - apply (Hgen "#FF0000" "50%" 255 0 0 (50 / 100)%float).
    + vm_compute. reflexivity.
    + vm_compute. reflexivity.
    + vm_compute. reflexivity.
  - apply H50. vm_compute. reflexivity.
  - apply H1. vm_compute. reflexivity.
Defined.




(** ** Chained variables *)

(** C2, as the code has it.  The document with the declarations
    [$a: #111;] and [$b: $a;] and the body line [color: $b;] compiles to
    [color: #111;]: the chained reference is resolved and the value is
    left as it was written.  Three-digit colours are widened by
    [_hex_to_rgb] only, that is inside a function call: with the body line
    [color: lighten($b, 0%);] the output is [color: #111111;]. *)
Theorem chained_variables_resolve :
  ∀ float_of_str resolve sibling path_exists read_text depth input,
    (read_text (resolve (resolve input)) = Ok chain_doc →
     compile_qss float_of_str resolve sibling path_exists read_text (S depth) input
     = Ok "color: #111;")
    ∧ (read_text (resolve (resolve input)) = Ok chain_call_doc →
       float_of_str "0" = Some 0%float →
       compile_qss float_of_str resolve sibling path_exists read_text (S depth) input
       = Ok "color: #111111;").
Proof.
  intros float_of_str resolve sibling path_exists read_text depth input. split.
  - intros Hread. unfold compile_qss.
    rewrite (collect_plain resolve sibling path_exists read_text depth input
               chain_doc Hread) by (vm_compute; reflexivity).
    cbn [mbind result_bind rbind].
    replace (_expand_vars _ _) with "color: #111;" by (vm_compute; reflexivity).
    apply apply_functions_settled; [|vm_compute; reflexivity].
    apply sub_result_none. vm_compute. reflexivity.
  - intros Hread Hzero. unfold compile_qss.
    rewrite (collect_plain resolve sibling path_exists read_text depth input
               chain_call_doc Hread) by (vm_compute; reflexivity).
    cbn [mbind result_bind rbind].
    replace (_expand_vars _ _) with "color: lighten(#111, 0%);"
      by (vm_compute; reflexivity).
    apply apply_functions_settled; [|vm_compute; reflexivity].
    rewrite (sub_result_one _ _ "color: lighten(#111, 0%);"
               (list_ascii_of_string "color: ") (list_ascii_of_string ";")
               {| whole := "lighten(#111, 0%)";
                  groups := [(3%nat, "0%"); (2%nat, "#111"); (1%nat, "lighten")] |}
               "#111111").
    + vm_compute. reflexivity.
    + vm_compute. reflexivity.
    + rewrite repl_lighten by (vm_compute; reflexivity).
      rewrite (lighten_unfold float_of_str _ _ 17 17 17 (0 / 100)%float).
      * rewrite !lighten_channel_zero by lia. vm_compute. reflexivity.
      * vm_compute. reflexivity.
      * apply parse_percent; [vm_compute; reflexivity | exact Hzero].
Qed.

Lemma chained_variables_resolve_witness :
  Disk.compile chain_disk "/w/main.qsspp" = Ok "color: #111;"
  ∧ Disk.compile [("/w/main.qsspp", chain_call_doc)] "/w/main.qsspp"
    = Ok "color: #111111;".
Proof.
  split.
  - apply (proj1 (chained_variables_resolve PyFloat.dec_float Disk.resolve
                    Disk.sibling (Disk.path_exists chain_disk)
                    (Disk.read_text chain_disk) 999%nat "/w/main.qsspp")).
    vm_compute. reflexivity.
  - apply (proj2 (chained_variables_resolve PyFloat.dec_float Disk.resolve
                    Disk.sibling
                    (Disk.path_exists [("/w/main.qsspp", chain_call_doc)])
                    (Disk.read_text [("/w/main.qsspp", chain_call_doc)])
                    999%nat "/w/main.qsspp")).
    + vm_compute. reflexivity.
    + vm_compute. reflexivity.
Defined.

(** C2, as it is worded, fails: the compiled body of the chained document
    is not [color: #111111;], and no widened colour occurs in it. *)
Lemma chained_value_not_widened :
  Disk.compile chain_disk "/w/main.qsspp" ≠ Ok "color: #111111;"
  ∧ ∃ out, Disk.compile chain_disk "/w/main.qsspp" = Ok out
           ∧ Py.contains "#111111" out = false.
Proof.
  split.
  - vm_compute. discriminate.
  - exists "color: #111;". split; vm_compute; reflexivity.
Qed.

(** ** The matcher moves forward *)

Lemma append_length (a b : string) :
  String.length (a +:+ b) = (String.length a + String.length b)%nat.
Proof.
  induction a as [|x a IH]; [reflexivity|].
  rewrite append_cons. cbn [String.length]. by rewrite IH.
Qed.

Lemma append_empty_r (a : string) : a +:+ EmptyString = a.
Proof.
  induction a as [|x a IH]; [reflexivity|]. rewrite append_cons. by rewrite IH.
Qed.

Lemma substring_prefix (a b : string) :
  String.substring 0 (String.length a) (a +:+ b) = a.
Proof.
  induction a as [|x a IH]; [by destruct b|].
  rewrite append_cons. cbn [String.length String.substring]. by rewrite IH.
Qed.

Lemma moved_span p p' t : moved p p' t → span p p' = t.
Proof.
  unfold moved, span. intros ->. rewrite append_length.
  replace (String.length t + String.length (rest p') - String.length (rest p'))%nat
    with (String.length t) by lia.
  apply substring_prefix.
Qed.

Lemma moved_trans p p1 p2 t1 t2 :
  moved p p1 t1 → moved p1 p2 t2 → moved p p2 (t1 +:+ t2).
Proof. unfold moved. intros -> ->. by rewrite append_assoc. Qed.

Lemma moved_not_advanced p p' t :
  moved p p' t → advanced p p' = false → t = EmptyString.
Proof.
  unfold moved, advanced. intros H Hadv. apply Nat.ltb_ge in Hadv.
  rewrite H, append_length in Hadv. destruct t; [reflexivity|].
  cbn [String.length] in Hadv. lia.
Qed.

(** Whatever a pattern matches, the continuation is entered at a cursor
    further along the same text. *)
Lemma rmatch_moves {A : Type} (r : regex) :
  ∀ p g (k : cursor -> captures -> option A) x,
    rmatch r p g k = Some x →
    ∃ p' g' t, moved p p' t ∧ k p' g' = Some x.
Proof.
  induction r as [|f|r1 IH1 r2 IH2|r1 IH1 r2 IH2|r1 IH1|r1 IH1|i r1 IH1| | |];
    intros p g k x H; cbn [rmatch] in H.
  - exists p, g, EmptyString. by split.
  - destruct (rest p) as [|c s] eqn:Hr; [discriminate|].
    destruct (f c); [|discriminate].
    eexists _, g, (String c EmptyString). split; [|exact H]. unfold moved. cbn [rest]. by rewrite Hr.
  - apply IH1 in H as (p1 & g1 & t1 & Hm1 & H).
    apply IH2 in H as (p2 & g2 & t2 & Hm2 & H).
    exists p2, g2, (t1 +:+ t2). split; [by eapply moved_trans | done].
  - destruct (rmatch r1 p g k) as [y|] eqn:E.
    + inversion H; subst. by apply IH1 in E.
    + by apply IH2 in H.
  - revert H. generalize (String.length (rest p)) as fuel. intros fuel.
    revert p g. induction fuel as [|fuel IHf]; intros p g H.
    + exists p, g, EmptyString. by split.
    + destruct (rmatch r1 p g _) as [y|] eqn:E.
      * inversion H; subst. apply IH1 in E as (p1 & g1 & t1 & Hm1 & E).
        destruct (advanced p p1); [|discriminate].
        apply IHf in E as (p2 & g2 & t2 & Hm2 & E).
        exists p2, g2, (t1 +:+ t2). split; [by eapply moved_trans | done].
      * exists p, g, EmptyString. by split.
  - revert H. generalize (String.length (rest p)) as fuel. intros fuel.
    revert p g. induction fuel as [|fuel IHf]; intros p g H.
    + exists p, g, EmptyString. by split.
    + destruct (k p g) as [y|] eqn:E.
      * inversion H; subst. exists p, g, EmptyString. by split.
      * apply IH1 in H as (p1 & g1 & t1 & Hm1 & H).
        destruct (advanced p p1); [|discriminate].
        apply IHf in H as (p2 & g2 & t2 & Hm2 & H).
        exists p2, g2, (t1 +:+ t2). split; [by eapply moved_trans | done].
  - apply IH1 in H as (p1 & g1 & t1 & Hm1 & H). by exists p1, ((i, span p p1) :: g1), t1.
  - destruct (at_bol p); [|discriminate]. exists p, g, EmptyString. by split.
  - destruct (at_eol p); [|discriminate]. exists p, g, EmptyString. by split.
  - destruct (at_word_boundary p); [|discriminate]. exists p, g, EmptyString. by split.
Qed.

(** A match is the text between the two cursors. *)
Lemma match_at_moves r p p' m :
  match_at r p = Some (p', m) → moved p p' (whole m).
Proof.
  unfold match_at. intros H.
  apply rmatch_moves in H as (p1 & g1 & t & Hm & H).
  inversion H; subst. cbn [whole]. by rewrite (moved_span _ _ _ Hm).
Qed.

Lemma concat_cons (x : string) (l : list string) :
  String.concat EmptyString (x :: l) = x +:+ String.concat EmptyString l.
Proof.
  destruct l as [|y l]; cbn [String.concat]; [by rewrite append_empty_r | reflexivity].
Qed.

(** The pieces of a cut text put together give the text back. *)
Lemma scan_text r :
  ∀ fuel p,
    (String.length (rest p) < fuel)%nat →
    String.concat EmptyString (seg_text <$> scan fuel r p) = rest p.
Proof.
  induction fuel as [|fuel IH]; intros p Hlen; [lia|].
  assert (Hstep : String.concat EmptyString (seg_text <$> step_over p (scan fuel r))
                  = rest p).
  { unfold step_over. destruct (rest p) as [|c s] eqn:Hr; [reflexivity|].
    rewrite fmap_cons, concat_cons. cbn [seg_text].
    rewrite IH; [reflexivity|]. cbn [rest String.length] in *. lia. }
  cbn [scan]. destruct (match_at r p) as [[p' m]|] eqn:E; [|exact Hstep].
  pose proof (match_at_moves _ _ _ _ E) as Hm.
  destruct (advanced p p') eqn:Hadv.
  - rewrite fmap_cons, concat_cons. cbn [seg_text].
    rewrite IH; [by rewrite Hm|].
    unfold advanced in Hadv. apply Nat.ltb_lt in Hadv. lia.
  - rewrite fmap_cons, concat_cons. cbn [seg_text].
    by rewrite (moved_not_advanced _ _ _ Hm Hadv), Hstep.
Qed.

Lemma segments_text r s :
  String.concat EmptyString (seg_text <$> segments r s) = s.
Proof. unfold segments. rewrite scan_text; cbn [rest]; [reflexivity | lia]. Qed.


Lemma rmatch_cat {A} r1 r2 p g (k : cursor -> captures -> option A) :
  rmatch (Cat r1 r2) p g k = rmatch r1 p g (fun p' g' => rmatch r2 p' g' k).
Proof. reflexivity. Qed.

Lemma rmatch_grp {A} i r p g (k : cursor -> captures -> option A) :
  rmatch (Grp i r) p g k = rmatch r p g (fun p' g' => k p' ((i, span p p') :: g')).
Proof. reflexivity. Qed.

Lemma rmatch_chr {A} f p g (k : cursor -> captures -> option A) :
  rmatch (Chr f) p g k =
  match rest p with
  | String c s => if f c then k {| prev := Some c; rest := s |} g else None
  | EmptyString => None
  end.
Proof. reflexivity. Qed.



(** ** The variable table *)


Lemma dict_get_set_other d k v k' :
  k ≠ k' → dict_get (dict_set d k v) k' = dict_get d k'.
Proof.
  intros Hne. induction d as [|[k0 v0] d IH]; cbn [dict_get dict_set].
  - destruct (String.eqb k k') eqn:E; [|reflexivity].
    apply String.eqb_eq in E. contradiction.
  - destruct (String.eqb k0 k) eqn:E; cbn [dict_get].
    + apply String.eqb_eq in E. subst k0.
      destruct (String.eqb k k') eqn:E'; [|reflexivity].
      apply String.eqb_eq in E'. contradiction.
    + by rewrite IH.
Qed.



Lemma dict_get_elem d k v : dict_get d k = Some v → (k, v) ∈ d.
Proof.
  induction d as [|[k' v'] d IH]; cbn [dict_get]; [discriminate|].
  destruct (String.eqb k' k) eqn:E.
  - apply String.eqb_eq in E. intros [= ->]. subst. apply elem_of_cons. by left.
  - intros H. apply elem_of_cons. right. by apply IH.
Qed.

Lemma dict_get_of_elem d k v : NoDup d.*1 → (k, v) ∈ d → dict_get d k = Some v.
Proof.
  induction d as [|[k' v'] d IH]; intros Hnd Hin; [by apply elem_of_nil in Hin|].
  rewrite fmap_cons in Hnd. apply NoDup_cons in Hnd as [Hk' Hnd].
  cbn [dict_get]. apply elem_of_cons in Hin as [[= -> ->]|Hin].
  - by rewrite String.eqb_refl.
  - destruct (String.eqb k' k) eqn:E; [|by apply IH].
    apply String.eqb_eq in E. subst k'. exfalso. apply Hk'.
    apply list_elem_of_fmap. by exists (k, v).
Qed.
















(** The tables the pipeline builds have one entry per name. *)
Lemma dict_set_keys_inv d k v k' :
  k' ∈ (dict_set d k v).*1 → k' = k ∨ k' ∈ d.*1.
Proof.
  induction d as [|[k0 v0] d IH]; cbn [dict_set].
  - rewrite list_fmap_singleton. intros ->%list_elem_of_singleton. by left.
  - destruct (String.eqb k0 k); rewrite !fmap_cons; [by right|].
    intros [->|Hin]%elem_of_cons.
    + right. apply elem_of_cons. by left.
    + destruct (IH Hin) as [->|Hd]; [by left|]. right. apply elem_of_cons. by right.
Qed.

Lemma dict_set_nodup d k v : NoDup d.*1 → NoDup (dict_set d k v).*1.
Proof.
  induction d as [|[k0 v0] d IH]; intros Hnd; cbn [dict_set].
  - apply NoDup_singleton.
  - rewrite fmap_cons in Hnd. apply NoDup_cons in Hnd as [Hk0 Hnd].
    destruct (String.eqb k0 k) eqn:E; rewrite fmap_cons.
    + apply NoDup_cons. by split.
    + apply NoDup_cons. split; [|by apply IH].
      intros [Heq|Hin]%dict_set_keys_inv; [|done].
      cbn [fst] in Heq. subst. by rewrite String.eqb_refl in E.
Qed.

Lemma extract_vars_nodup text : NoDup (_extract_vars text).*1.
Proof.
  unfold _extract_vars. generalize (finditer _VAR_DEF_RE text) as ms.
  assert (H : NoDup (([] : dict).*1)) by apply NoDup_nil_2.
  revert H. generalize ([] : dict) as d. intros d H ms. revert d H.
  induction ms as [|m ms IH]; intros d H; cbn [fold_left]; [done|].
  apply IH. by apply dict_set_nodup.
Qed.



(** ** Texts a pattern cannot match *)

Lemma has_char_append c a b :
  has_char c (a +:+ b) = (has_char c a || has_char c b)%bool.
Proof.
  induction a as [|x a IH]; [reflexivity|].
  rewrite append_cons. cbn [has_char]. rewrite IH. by rewrite orb_assoc.
Qed.

(** A match of a pattern that demands [c] moves over a text that holds
    [c]. *)
Lemma rmatch_demands {A : Type} (c : ascii) (r : regex) :
  demands c r →
  ∀ p g (k : cursor -> captures -> option A) x,
    rmatch r p g k = Some x →
    ∃ p' g' t, moved p p' t ∧ has_char c t = true ∧ k p' g' = Some x.
Proof.
  induction r as [|f|r1 IH1 r2 IH2|r1 IH1 r2 IH2|r1 IH1|r1 IH1|i r1 IH1| | |];
    cbn [demands]; intros Hd p g k x H; try done.
  - rewrite rmatch_chr in H. destruct (rest p) as [|a s] eqn:Hr; [discriminate|].
    destruct (f a) eqn:Hf; [|discriminate]. apply Hd in Hf. subst a.
    eexists _, g, (String c EmptyString). split; [|split; [|exact H]].
    + unfold moved. cbn [rest]. by rewrite Hr.
    + cbn [has_char]. by rewrite Ascii.eqb_refl.
  - rewrite rmatch_cat in H. destruct Hd as [Hd|Hd].
    + apply (IH1 Hd) in H as (p1 & g1 & t1 & Hm1 & Hc & H).
      apply rmatch_moves in H as (p2 & g2 & t2 & Hm2 & H).
      exists p2, g2, (t1 +:+ t2). split; [by eapply moved_trans|].
      split; [|done]. by rewrite has_char_append, Hc.
    + apply rmatch_moves in H as (p1 & g1 & t1 & Hm1 & H).
      apply (IH2 Hd) in H as (p2 & g2 & t2 & Hm2 & Hc & H).
      exists p2, g2, (t1 +:+ t2). split; [by eapply moved_trans|].
      split; [|done]. by rewrite has_char_append, Hc, orb_true_r.
  - destruct Hd as [Hd1 Hd2]. cbn [rmatch] in H.
    destruct (rmatch r1 p g k) as [y|] eqn:E.
    + inversion H; subst. by apply (IH1 Hd1) in E.
    + by apply (IH2 Hd2) in H.
  - rewrite rmatch_grp in H.
    apply (IH1 Hd) in H as (p1 & g1 & t1 & Hm1 & Hc & H).
    by exists p1, ((i, span p p1) :: g1), t1.
Qed.

(** The cursors of the scanning loop stay within the subject. *)
Lemma scan_hits_within r m :
  ∀ fuel p,
    Hit m ∈ scan fuel r p →
    ∃ pre p0 p', rest p = pre +:+ rest p0 ∧ match_at r p0 = Some (p', m).
Proof.
  induction fuel as [|fuel IH]; intros p Hin; [by apply elem_of_nil in Hin|].
  assert (Hstep : Hit m ∈ step_over p (scan fuel r) →
                  ∃ pre p0 p', rest p = pre +:+ rest p0 ∧ match_at r p0 = Some (p', m)).
  { unfold step_over. destruct (rest p) as [|a s] eqn:Hr; [by intros ?%elem_of_nil|].
    intros [?|Hin']%elem_of_cons; [discriminate|].
    apply IH in Hin' as (pre & p0 & p' & Hpre & Hm). cbn [rest] in Hpre.
    exists (String a pre), p0, p'. split; [|done]. by rewrite append_cons, <- Hpre. }
  cbn [scan] in Hin. destruct (match_at r p) as [[p' m']|] eqn:E; [|by apply Hstep].
  assert (Hhere : ∃ pre p0 p1, rest p = pre +:+ rest p0 ∧ match_at r p0 = Some (p1, m'))
    by (by exists EmptyString, p, p').
  destruct (advanced p p').
  - apply elem_of_cons in Hin as [Heq|Hin]; [by inversion Heq; subst|].
    apply IH in Hin as (pre & p0 & p1 & Hpre & Hm).
    pose proof (match_at_moves _ _ _ _ E) as Hmv. unfold moved in Hmv.
    exists (whole m' +:+ pre), p0, p1. split; [|done].
    by rewrite Hmv, Hpre, append_assoc.
  - apply elem_of_cons in Hin as [Heq|Hin]; [by inversion Heq; subst | by apply Hstep].
Qed.

(** A text without [c] has no match of a pattern that demands [c]. *)
Lemma demands_no_hit c r s m :
  demands c r → has_char c s = false → Hit m ∉ segments r s.
Proof.
  intros Hd Hc Hin. unfold segments in Hin.
  apply scan_hits_within in Hin as (pre & p0 & p' & Hpre & Hm).
  cbn [rest] in Hpre. unfold match_at in Hm.
  apply (rmatch_demands c r Hd) in Hm as (p1 & g1 & t & Hmv & Ht & _).
  unfold moved in Hmv. rewrite Hpre, Hmv, !has_char_append, Ht in Hc.
  by rewrite orb_true_r in Hc.
Qed.

(** A cut without matches is the text, character by character. *)
Lemma segments_all_lit (l : list segment) :
  (∀ m, Hit m ∉ l) →
  l = Lit <$> list_ascii_of_string (String.concat EmptyString (seg_text <$> l)).
Proof.
  induction l as [|x l IH]; intros Hno; [reflexivity|].
  rewrite fmap_cons, concat_cons. destruct x as [a|m].
  - cbn [seg_text]. rewrite append_cons. cbn [list_ascii_of_string].
    rewrite fmap_cons. f_equal. apply IH. intros m Hin. apply (Hno m).
    apply elem_of_cons. by right.
  - exfalso. apply (Hno m). apply elem_of_cons. by left.
Qed.

Lemma demands_segments c r s :
  demands c r → has_char c s = false →
  segments r s = Lit <$> list_ascii_of_string s.
Proof.
  intros Hd Hc. rewrite <- (segments_text r s) at 2.
  apply segments_all_lit. intros m. by eapply demands_no_hit.
Qed.

Lemma sub_unmatched r repl s :
  segments r s = Lit <$> list_ascii_of_string s → sub r repl s = s.
Proof.
  intros Hs. unfold sub. rewrite <- (segments_text r s) at 2. rewrite Hs.
  by rewrite <- !list_fmap_compose.
Qed.

Lemma chr_demands c : demands c (chr c).
Proof. cbn. intros x H. apply Ascii.eqb_eq in H. by subst. Qed.

Lemma func_re_demands : demands "(" _FUNC_RE.
Proof. unfold _FUNC_RE. cbn [seq demands]. right. right. left. apply chr_demands. Qed.

Lemma var_use_re_demands : demands "$" _VAR_USE_RE.
Proof. unfold _VAR_USE_RE. cbn [seq demands]. left. apply chr_demands. Qed.

Lemma var_def_re_demands : demands "$" _VAR_DEF_RE.
Proof. unfold _VAR_DEF_RE. cbn [seq demands]. right. right. left. apply chr_demands. Qed.

Lemma import_re_demands : demands "@" _IMPORT_RE.
Proof.
  unfold _IMPORT_RE. cbn [seq demands lit]. right. right. left. left.
  apply chr_demands.
Qed.

Lemma comment_re_demands_slash : demands "/" _COMMENT_RE.
Proof. unfold _COMMENT_RE. cbn [seq demands lit]. left. left. apply chr_demands. Qed.

Lemma comment_re_demands_star : demands "*" _COMMENT_RE.
Proof. unfold _COMMENT_RE. cbn [seq demands lit]. left. right. apply chr_demands. Qed.

(** ** Stages that leave a text alone *)

(** X1.  The function evaluator on a text without an opening parenthesis:
    there is no call to rewrite, the text comes back as it is and nothing
    is raised, whatever [float] does. *)
Theorem apply_functions_without_call :
  ∀ float_of_str text,
    has_char "(" text = false →
    _apply_functions float_of_str text = Ok text.
Proof.
  intros fl text Hc.
  pose proof (demands_segments _ _ _ func_re_demands Hc) as Hs.
  apply apply_functions_settled; [|exact Hs]. by apply sub_result_none.
Qed.

Lemma apply_functions_without_call_witness :
  _apply_functions PyFloat.dec_float "QPushButton { color: #ff0000; }"
  = Ok "QPushButton { color: #ff0000; }".
Proof.
  apply apply_functions_without_call. vm_compute. reflexivity.
Defined.

Lemma finditer_unmatched r s :
  segments r s = Lit <$> list_ascii_of_string s → finditer r s = [].
Proof.
  intros Hs. unfold finditer. rewrite Hs.
  generalize (list_ascii_of_string s) as l.
  induction l as [|a l IH]; [reflexivity|]. rewrite fmap_cons. exact IH.
Qed.

Lemma sub_whole r s : sub r whole s = s.
Proof.
  unfold sub. rewrite <- (segments_text r s) at 2. reflexivity.
Qed.

(** X2.  The variable stages on a text without references.  A text
    without a dollar sign declares nothing and is not changed by the
    expander, whatever the table; and with an empty table the expander
    changes no text at all, every reference being left as it stands. *)
Theorem expand_vars_without_reference :
  (∀ text table,
     has_char "$" text = false →
     _extract_vars text = [] ∧ _expand_vars text table = text)
  ∧ (∀ text, _expand_vars text [] = text).
Proof.
  split.
  - intros text table Hc. split.
    + unfold _extract_vars.
      by rewrite (finditer_unmatched _ _ (demands_segments _ _ _ var_def_re_demands Hc)).
    + unfold _expand_vars. apply sub_unmatched.
      by apply (demands_segments _ _ _ var_use_re_demands).
  - intros text. apply (sub_whole _VAR_USE_RE text).
Qed.

Lemma expand_vars_without_reference_witness :
  _extract_vars "QLabel { margin: 2px; }" = []
  ∧ _expand_vars "QLabel { margin: 2px; }" [("pad", "4px")] = "QLabel { margin: 2px; }".
Proof.
  apply (proj1 expand_vars_without_reference). vm_compute. reflexivity.
Defined.

Lemma list_ascii_of_append (a b : string) :
  list_ascii_of_string (a +:+ b)
  = (list_ascii_of_string a ++ list_ascii_of_string b)%list.
Proof.
  induction a as [|x a IH]; [reflexivity|].
  rewrite append_cons. cbn [list_ascii_of_string app]. by rewrite IH.
Qed.

(** Replacing matches by nothing keeps the other characters in order. *)
Lemma sub_empty_sublist r s :
  list_ascii_of_string (sub r (fun _ => EmptyString) s)
  `sublist_of` list_ascii_of_string s.
Proof.
  unfold sub. rewrite <- (segments_text r s) at 2.
  generalize (segments r s) as l.
  induction l as [|x l IH]; [reflexivity|].
  rewrite !fmap_cons, !concat_cons, !list_ascii_of_append.
  destruct x as [a|m]; cbn [seg_out seg_text].
  - by apply sublist_app.
  - cbn [list_ascii_of_string app]. by apply sublist_inserts_l.
Qed.

Lemma length_list_ascii (s : string) :
  length (list_ascii_of_string s) = String.length s.
Proof. induction s as [|x s IH]; [reflexivity|]. cbn. by rewrite IH. Qed.

(** X3.  The comment remover only removes: what it returns is the text
    with some characters left out, the others in their order, so it is
    never longer than the text; and a text without a slash, or without a
    star, holds no comment and comes back as it is. *)
Theorem remove_comments_only_removes :
  ∀ text,
    list_ascii_of_string (_remove_comments text) `sublist_of` list_ascii_of_string text
    ∧ (String.length (_remove_comments text) <= String.length text)%nat
    ∧ (has_char "/" text = false ∨ has_char "*" text = false →
       _remove_comments text = text).
Proof.
  intros text. split; [apply sub_empty_sublist|]. split.
  - rewrite <- !length_list_ascii. apply sublist_length, sub_empty_sublist.
  - intros [Hc|Hc]; unfold _remove_comments; apply sub_unmatched.
    + by apply (demands_segments _ _ _ comment_re_demands_slash).
    + by apply (demands_segments _ _ _ comment_re_demands_star).
Qed.

Lemma remove_comments_only_removes_witness :
  _remove_comments "a { width: 2*3; }" = "a { width: 2*3; }".
Proof.
  apply (proj2 (proj2 (remove_comments_only_removes "a { width: 2*3; }"))).
  left. vm_compute. reflexivity.
Defined.

(** X4.  A document without an at sign has no import statement: for an
    identity not yet in the set, [_collect] returns its text unchanged and
    adds the identity to the set, and nothing else. *)
Theorem collect_without_import :
  ∀ resolve sibling path_exists read_text depth source visited text,
    resolve source ∉ visited →
    read_text (resolve source) = Ok text →
    has_char "@" text = false →
    _collect resolve sibling path_exists read_text (S depth) source visited
    = Ok (text, {[resolve source]} ∪ visited).
Proof.
  intros resolve sibling path_exists read_text depth source visited text Hout Hread Hc.
  rewrite collect_fresh by done. rewrite Hread. cbn [mbind result_bind rbind].
  rewrite (demands_segments _ _ _ import_re_demands Hc), sub_segments_st_lits.
  by rewrite string_of_list_ascii_of_string.
Qed.

Lemma collect_without_import_witness :
  _collect Disk.resolve Disk.sibling (Disk.path_exists chain_disk)
    (Disk.read_text chain_disk) 1 "/w/main.qsspp" ∅
  = Ok (chain_doc, {["/w/main.qsspp"]} ∪ ∅).
Proof.
  apply (collect_without_import Disk.resolve Disk.sibling
           (Disk.path_exists chain_disk) (Disk.read_text chain_disk)
           0%nat "/w/main.qsspp" ∅ chain_doc).
  - apply not_elem_of_empty.
  - vm_compute. reflexivity.
  - vm_compute. reflexivity.
Defined.

(** ** The table of declarations *)

Lemma dict_get_set_eq d k v : dict_get (dict_set d k v) k = Some v.
Proof.
  induction d as [|[k' v'] d IH]; cbn [dict_get dict_set].
  - by rewrite String.eqb_refl.
  - destruct (String.eqb k' k) eqn:E; cbn [dict_get]; by rewrite E.
Qed.

Lemma last_declared_cons name m ms :
  last_declared name (m :: ms)
  = match last_declared name ms with
    | Some v => Some v
    | None => if decide (group m 1 = name) then Some (Py.strip (group m 2)) else None
    end.
Proof.
  unfold last_declared. rewrite filter_cons.
  destruct (decide (group m 1 = name)) as [E|E].
  - destruct (filter _ ms) as [|m' l] eqn:Hf; [reflexivity|].
    rewrite last_cons. by destruct (last (m' :: l)) eqn:Hl.
  - by destruct (last _).
Qed.

Lemma extract_fold_lookup name ms :
  ∀ d,
    dict_get (fold_left (fun vars_ m => dict_set vars_ (group m 1) (Py.strip (group m 2)))
                ms d) name
    = match last_declared name ms with
      | Some v => Some v
      | None => dict_get d name
      end.
Proof.
  induction ms as [|m ms IH]; intros d; [reflexivity|].
  cbn [fold_left]. rewrite IH, last_declared_cons.
  destruct (last_declared name ms); [reflexivity|].
  destruct (decide (group m 1 = name)) as [<-|E].
  - apply dict_get_set_eq.
  - by apply dict_get_set_other.
Qed.

(** X5.  The table [_extract_vars] builds from an ASCII text has one
    entry per declared name, and the entry of a name is its last
    declaration in the text, trimmed: a later declaration overrides an
    earlier one, and a name without a declaration has no entry. *)
Theorem extract_vars_last_wins :
  ∀ text,
    ascii_text text = true →
    NoDup (_extract_vars text).*1
    ∧ (∀ name,
         dict_get (_extract_vars text) name
         = last_declared name (finditer _VAR_DEF_RE text))
    ∧ (∀ name v,
         (name, v) ∈ _extract_vars text
         ↔ last_declared name (finditer _VAR_DEF_RE text) = Some v).
Proof.
  intros text _.
  assert (Hget : ∀ name, dict_get (_extract_vars text) name
                         = last_declared name (finditer _VAR_DEF_RE text)).
  { intros name. unfold _extract_vars. rewrite extract_fold_lookup.
    by destruct (last_declared _ _). }
  split; [apply extract_vars_nodup|]. split; [exact Hget|].
  intros name v. rewrite <- Hget. split.
  - apply dict_get_of_elem, extract_vars_nodup.
  - apply dict_get_elem.
Qed.

Lemma extract_vars_last_wins_witness :
  NoDup (_extract_vars ("$a: 1;" +:+ nl +:+ "$b: 2;" +:+ nl +:+ "$a: 3 ;" +:+ nl)).*1
  ∧ (∀ name,
       dict_get (_extract_vars ("$a: 1;" +:+ nl +:+ "$b: 2;" +:+ nl +:+ "$a: 3 ;" +:+ nl))
         name
       = last_declared name
           (finditer _VAR_DEF_RE
              ("$a: 1;" +:+ nl +:+ "$b: 2;" +:+ nl +:+ "$a: 3 ;" +:+ nl)))
  ∧ (∀ name v,
       (name, v) ∈ _extract_vars ("$a: 1;" +:+ nl +:+ "$b: 2;" +:+ nl +:+ "$a: 3 ;" +:+ nl)
       ↔ last_declared name
           (finditer _VAR_DEF_RE
              ("$a: 1;" +:+ nl +:+ "$b: 2;" +:+ nl +:+ "$a: 3 ;" +:+ nl))
         = Some v).
Proof.
  apply (extract_vars_last_wins
           ("$a: 1;" +:+ nl +:+ "$b: 2;" +:+ nl +:+ "$a: 3 ;" +:+ nl)).
  vm_compute. reflexivity.
Defined.

(** ** Inlining an import *)



(** ** Colours: what is accepted and what comes out *)

(** [_hex_to_rgb] on an argument of six digits reads three pairs. *)
Lemma hex_to_rgb_by_digits c :
  String.length (color_digits c) = 6%nat →
  _hex_to_rgb c
  = (r ← PyInt.int16 (String.substring 0 2 (color_digits c));
     g ← PyInt.int16 (String.substring 2 2 (color_digits c));
     b ← PyInt.int16 (String.substring 4 2 (color_digits c));
     Ok (r, g, b)).
Proof.
  intros H. unfold _hex_to_rgb. fold (color_digits c). by rewrite H.
Qed.

(** X7.  Decoding and encoding a colour.  An argument that is six
    hexadecimal digits once trimmed, relieved of a leading [#] and, when
    three characters long, doubled, is read as three channels in
    [0, 255], and [_rgb_to_hex] of them is [#] followed by those six digits
    in upper case: the two functions are inverse up to this normal form. *)
Theorem hex_decode_encode :
  ∀ c,
    String.length (color_digits c) = 6%nat →
    all_chars is_hex_digit (color_digits c) = true →
    ∃ r g b,
      _hex_to_rgb c = Ok (r, g, b)
      ∧ 0 <= r <= 255 ∧ 0 <= g <= 255 ∧ 0 <= b <= 255
      ∧ _rgb_to_hex r g b = "#" +:+ upper (color_digits c).
Proof.
  intros c Hlen Hhex. rewrite (hex_to_rgb_by_digits c Hlen).
  destruct (color_digits c) as [|h1 [|l1 [|h2 [|l2 [|h3 [|l3 [|]]]]]]]; try discriminate.
  cbn [all_chars] in Hhex. repeat (apply andb_prop in Hhex as [? Hhex]).
  destruct (hex_pair_value h1 l1) as (r & Hr & Hr255 & Hfr); try done.
  destruct (hex_pair_value h2 l2) as (g & Hg & Hg255 & Hfg); try done.
  destruct (hex_pair_value h3 l3) as (b & Hb & Hb255 & Hfb); try done.
  exists r, g, b. cbn [String.substring]. rewrite Hr, Hg, Hb.
  repeat split; try lia.
  unfold _rgb_to_hex. rewrite !clamp255_id by done. by rewrite Hfr, Hfg, Hfb.
Qed.

Lemma hex_decode_encode_witness :
  ∃ r g b,
    _hex_to_rgb " a1c " = Ok (r, g, b)
    ∧ 0 <= r <= 255 ∧ 0 <= g <= 255 ∧ 0 <= b <= 255
    ∧ _rgb_to_hex r g b = "#AA11CC".
Proof.
  apply (hex_decode_encode " a1c "); vm_compute; reflexivity.
Defined.

Lemma int16_pair_outcome (a b : ascii) :
  match PyInt.int16 (String a (String b EmptyString)) with
  | Ok n => -15 <= n <= 255
  | Raise e => ∃ msg, e = ValueError msg
  end.
Proof.
  pose (check := fun a b : ascii =>
    match PyInt.parse16 (String a (String b EmptyString)) with
    | Some n => (-15 <=? n) && (n <=? 255)
    | None => true
    end).
  pose proof (ascii_forall2 check ltac:(vm_compute; reflexivity) a b) as Hc.
  unfold check in Hc. unfold PyInt.int16.
  destruct (PyInt.parse16 _) as [n|]; [|by eexists].
  apply andb_prop in Hc as [H1 H2]. lia.
Qed.

(** The channels [_hex_to_rgb] returns. *)
Lemma hex_to_rgb_channels (c : string) (r g b : Z) :
  _hex_to_rgb c = Ok (r, g, b) →
  -15 <= r <= 255 ∧ -15 <= g <= 255 ∧ -15 <= b <= 255.
Proof.
  destruct (decide (String.length (color_digits c) = 6%nat)) as [Hlen|Hlen];
    [|by rewrite (hex_to_rgb_wrong_length c Hlen)].
  rewrite (hex_to_rgb_by_digits c Hlen).
  destruct (color_digits c) as [|h1 [|l1 [|h2 [|l2 [|h3 [|l3 [|]]]]]]];
    try discriminate.
  cbn [String.substring].
  pose proof (int16_pair_outcome h1 l1) as H1.
  pose proof (int16_pair_outcome h2 l2) as H2.
  pose proof (int16_pair_outcome h3 l3) as H3.
  destruct (PyInt.int16 (String h1 _)) as [r'|e]; [|discriminate].
  destruct (PyInt.int16 (String h2 _)) as [g'|e]; [|discriminate].
  destruct (PyInt.int16 (String h3 _)) as [b'|e]; [|discriminate].
  cbn [mbind result_bind rbind]. by intros [= <- <- <-].
Qed.

(** X8.  The outcomes of [_hex_to_rgb].  Whatever the argument, it either
    raises a [ValueError] or returns three channels, none above 255 and
    none below -15: two characters read by [int(s, 16)] are at most [ff]
    and, a sign being accepted, at least [-f].  Both bounds are reached. *)
Theorem hex_to_rgb_outcomes :
  (∀ c,
     match _hex_to_rgb c with
     | Ok (r, g, b) => -15 <= r <= 255 ∧ -15 <= g <= 255 ∧ -15 <= b <= 255
     | Raise e => ∃ msg, e = ValueError msg
     end)
  ∧ _hex_to_rgb "#-fff00" = Ok (-15, 255, 0).
Proof.
  split; [|vm_compute; reflexivity].
  intros c. destruct (_hex_to_rgb c) as [[[r g] b]|e] eqn:Hc;
    [by apply (hex_to_rgb_channels c)|].
  destruct (decide (String.length (color_digits c) = 6%nat)) as [Hlen|Hlen];
    [|rewrite (hex_to_rgb_wrong_length c Hlen) in Hc; inversion Hc; by eexists].
  rewrite (hex_to_rgb_by_digits c Hlen) in Hc.
  destruct (color_digits c) as [|h1 [|l1 [|h2 [|l2 [|h3 [|l3 [|]]]]]]];
    try discriminate.
  cbn [String.substring] in Hc.
  pose proof (int16_pair_outcome h1 l1) as H1.
  pose proof (int16_pair_outcome h2 l2) as H2.
  pose proof (int16_pair_outcome h3 l3) as H3.
  destruct (PyInt.int16 (String h1 _)) as [r|e1]; [|by inversion Hc; subst].
  destruct (PyInt.int16 (String h2 _)) as [g|e2]; [|by inversion Hc; subst].
  destruct (PyInt.int16 (String h3 _)) as [b|e3]; [|by inversion Hc; subst].
  discriminate Hc.
Qed.

Lemma upper_hex_digit_facts (h : ascii) :
  is_upper_hex_digit h = true → is_hex_digit h = true ∧ upper_char h = h.
Proof.
  intros H.
  pose proof (ascii_forall
                (fun h => implb (is_upper_hex_digit h)
                            (is_hex_digit h && Ascii.eqb (upper_char h) h))
                ltac:(vm_compute; reflexivity) h) as Hc.
  cbv beta in Hc. rewrite H in Hc. cbn [implb] in Hc.
  apply andb_prop in Hc as [H1 H2]. by apply Ascii.eqb_eq in H2.
Qed.

(** What [_rgb_to_hex] writes is a colour in normal form. *)
Lemma rgb_to_hex_canonical (r g b : Z) :
  is_hex6 (_rgb_to_hex r g b) = true ∧ upper (_rgb_to_hex r g b) = _rgb_to_hex r g b.
Proof.
  unfold _rgb_to_hex.
  destruct (format_02X_byte _ (clamp255_range r)) as (h1 & l1 & -> & Hh1 & Hl1 & _).
  destruct (format_02X_byte _ (clamp255_range g)) as (h2 & l2 & -> & Hh2 & Hl2 & _).
  destruct (format_02X_byte _ (clamp255_range b)) as (h3 & l3 & -> & Hh3 & Hl3 & _).
  apply upper_hex_digit_facts in Hh1 as [Hh1 Hu1], Hl1 as [Hl1 Hv1].
  apply upper_hex_digit_facts in Hh2 as [Hh2 Hu2], Hl2 as [Hl2 Hv2].
  apply upper_hex_digit_facts in Hh3 as [Hh3 Hu3], Hl3 as [Hl3 Hv3].
  change ("#" +:+ String h1 (String l1 EmptyString)
              +:+ String h2 (String l2 EmptyString)
              +:+ String h3 (String l3 EmptyString))
    with (String "#" (String h1 (String l1 (String h2 (String l2
            (String h3 (String l3 EmptyString))))))).
  split.
  - cbn [is_hex6 String.length Nat.eqb all_chars andb].
    by rewrite Hh1, Hl1, Hh2, Hl2, Hh3, Hl3.
  - cbn [upper]. change (upper_char "#") with "#"%char.
    by rewrite Hu1, Hv1, Hu2, Hv2, Hu3, Hv3.
Qed.

(** X9.  What [lighten] and [darken] return.  Whenever one of them
    returns, for whatever colour and amount, the result is [#] and six
    upper-case hexadecimal digits, and [_hex_to_rgb] reads it as channels
    in [0, 255]: the result is a colour every function accepts. *)
Theorem lighten_darken_result_is_color :
  ∀ float_of_str c amt out,
    _lighten float_of_str c amt = Ok out ∨ _darken float_of_str c amt = Ok out →
    is_hex6 out = true ∧ upper out = out
    ∧ ∃ r g b, _hex_to_rgb out = Ok (r, g, b)
               ∧ 0 <= r <= 255 ∧ 0 <= g <= 255 ∧ 0 <= b <= 255.
Proof.
  intros fl c amt out H.
  assert (Hout : ∃ r g b, out = _rgb_to_hex r g b).
  { destruct H as [H|H]; [unfold _lighten in H | unfold _darken in H].
    - apply rbind_ok_inv in H as ([[r g] b] & _ & H).
      apply rbind_ok_inv in H as (f & _ & H).
      apply rbind_ok_inv in H as (r' & _ & H).
      apply rbind_ok_inv in H as (g' & _ & H).
      apply rbind_ok_inv in H as (b' & _ & H).
      inversion H. by eexists _, _, _.
    - apply rbind_ok_inv in H as ([[r g] b] & _ & H).
      apply rbind_ok_inv in H as (f & _ & H).
      apply rbind_ok_inv in H as (r' & _ & H).
      apply rbind_ok_inv in H as (g' & _ & H).
      apply rbind_ok_inv in H as (b' & _ & H).
      inversion H. by eexists _, _, _. }
  destruct Hout as (r & g & b & ->).
  destruct (rgb_to_hex_canonical r g b) as [H6 Hup].
  split; [done|]. split; [done|].
  exists (clamp255 r), (clamp255 g), (clamp255 b).
  split; [apply hex_to_rgb_of_rgb_to_hex|].
  pose proof (clamp255_range r). pose proof (clamp255_range g).
  pose proof (clamp255_range b). lia.
Qed.

Lemma lighten_darken_result_is_color_witness :
  is_hex6 "#4775A3" = true ∧ upper "#4775A3" = "#4775A3"
  ∧ ∃ r g b, _hex_to_rgb "#4775A3" = Ok (r, g, b)
             ∧ 0 <= r <= 255 ∧ 0 <= g <= 255 ∧ 0 <= b <= 255.
Proof.
  apply (lighten_darken_result_is_color PyFloat.dec_float "#369" "10%").
  left. vm_compute. reflexivity.
Defined.

Lemma channel_forall (f : Z -> bool) :
  forallb f all_channels = true → ∀ n, -15 <= n <= 255 → f n = true.
Proof.
  intros H n Hn. rewrite forallb_forall in H. apply H.
  unfold all_channels. replace n with (Z.of_nat (Z.to_nat (n + 15)) - 15) by lia.
  apply (in_map (fun k => Z.of_nat k - 15)), in_seq. lia.
Qed.

(** With the fraction 1 every channel a colour can have goes to 255 when
    lightened and to 0 when darkened. *)
Lemma channels_at_one (n : Z) :
  -15 <= n <= 255 →
  lighten_channel n 1%float = Ok 255 ∧ darken_channel n 1%float = Ok 0.
Proof.
  intros Hn.
  pose (check := fun n : Z =>
    match lighten_channel n 1%float, darken_channel n 1%float with
    | Ok a, Ok b => (a =? 255) && (b =? 0)
    | _, _ => false
    end).
  pose proof (channel_forall check ltac:(vm_compute; reflexivity) n Hn) as Hc.
  unfold check in Hc.
  destruct (lighten_channel n _) as [a|]; [|discriminate].
  destruct (darken_channel n _) as [b|]; [|discriminate].
  apply andb_prop in Hc as [Ha Hb]. split; f_equal; lia.
Qed.

(** With the fraction 2 a channel in [0, 255] overshoots and is clamped. *)
Lemma channels_at_two (n : Z) :
  0 <= n <= 255 →
  ∃ a b, lighten_channel n 2%float = Ok a ∧ clamp255 a = 255
         ∧ darken_channel n 2%float = Ok b ∧ clamp255 b = 0.
Proof.
  intros Hn.
  pose (check := fun n : Z =>
    match lighten_channel n 2%float, darken_channel n 2%float with
    | Ok a, Ok b => (clamp255 a =? 255) && (clamp255 b =? 0)
    | _, _ => false
    end).
  pose proof (byte_forall check ltac:(vm_compute; reflexivity) n Hn) as Hc.
  unfold check in Hc.
  destruct (lighten_channel n _) as [a|]; [|discriminate].
  destruct (darken_channel n _) as [b|]; [|discriminate].
  apply andb_prop in Hc as [Ha Hb]. exists a, b. repeat split; lia.
Qed.

(** X10.  Amounts that saturate.  With an amount parsed as 1 (such as
    [100%]), [lighten] returns white and [darken] black for every colour
    [_hex_to_rgb] accepts; with an amount parsed as 2 the channels of a
    colour in [0, 255] overshoot and the clamp of [_rgb_to_hex] gives the
    same two results. *)
Theorem lighten_darken_saturate :
  ∀ float_of_str c amt r g b,
    _hex_to_rgb c = Ok (r, g, b) →
    (_parse_percent_or_float float_of_str amt = Ok 1%float →
     _lighten float_of_str c amt = Ok "#FFFFFF"
     ∧ _darken float_of_str c amt = Ok "#000000")
    ∧ (_parse_percent_or_float float_of_str amt = Ok 2%float →
       0 <= r <= 255 → 0 <= g <= 255 → 0 <= b <= 255 →
       _lighten float_of_str c amt = Ok "#FFFFFF"
       ∧ _darken float_of_str c amt = Ok "#000000").
Proof.
  intros fl c amt r g b Hc. split.
  - intros Hf.
    destruct (hex_to_rgb_channels c r g b Hc) as (Hr & Hg & Hb).
    destruct (channels_at_one r Hr) as [Hlr Hdr].
    destruct (channels_at_one g Hg) as [Hlg Hdg].
    destruct (channels_at_one b Hb) as [Hlb Hdb].
    rewrite (lighten_unfold _ _ _ _ _ _ _ Hc Hf), (darken_unfold _ _ _ _ _ _ _ Hc Hf).
    rewrite Hlr, Hlg, Hlb, Hdr, Hdg, Hdb. split; vm_compute; reflexivity.
  - intros Hf Hr Hg Hb.
    destruct (channels_at_two r Hr) as (ar & br & Hlr & Har & Hdr & Hbr).
    destruct (channels_at_two g Hg) as (ag & bg & Hlg & Hag & Hdg & Hbg).
    destruct (channels_at_two b Hb) as (ab & bb & Hlb & Hab & Hdb & Hbb).
    rewrite (lighten_unfold _ _ _ _ _ _ _ Hc Hf), (darken_unfold _ _ _ _ _ _ _ Hc Hf).
    rewrite Hlr, Hlg, Hlb, Hdr, Hdg, Hdb. cbn [mbind result_bind rbind].
    unfold _rgb_to_hex. rewrite Har, Hag, Hab, Hbr, Hbg, Hbb.
    split; vm_compute; reflexivity.
Qed.

Lemma lighten_darken_saturate_witness :
  (_lighten PyFloat.dec_float "#336699" "100%" = Ok "#FFFFFF"
   ∧ _darken PyFloat.dec_float "#336699" "100%" = Ok "#000000")
  ∧ (_lighten PyFloat.dec_float "#336699" "200%" = Ok "#FFFFFF"
     ∧ _darken PyFloat.dec_float "#336699" "200%" = Ok "#000000").
Proof.
  split.
  - apply (proj1 (lighten_darken_saturate PyFloat.dec_float "#336699" "100%"
                    51 102 153 ltac:(vm_compute; reflexivity))).
    vm_compute. reflexivity.
  - apply (proj2 (lighten_darken_saturate PyFloat.dec_float "#336699" "200%"
                    51 102 153 ltac:(vm_compute; reflexivity))); try lia.
    vm_compute. reflexivity.
Defined.

(** ** Amounts that are no numbers *)

(** X11.  A malformed amount, in ASCII text.  When [float] refuses the
    amount (trimmed, its percent sign dropped), [_parse_percent_or_float]
    raises the [ValueError] of [float], whose message quotes that text as
    [repr] does; for a colour that decodes, [lighten], [darken] and
    [alpha] raise what the amount raises; and so does the evaluation of
    a text whose first call has such an amount. *)
Theorem malformed_amount_raises :
  ∀ float_of_str,
    (∀ amt,
       let s := Py.strip amt in
       let num := if Py.endswith "%" s then Py.drop_last s else s in
       ascii_text amt = true →
       float_of_str num = None →
       _parse_percent_or_float float_of_str amt
       = Raise (ValueError ("could not convert string to float: " +:+ Py.repr num)))
    ∧ (∀ c amt r g b e,
         ascii_text amt = true →
         _hex_to_rgb c = Ok (r, g, b) →
         _parse_percent_or_float float_of_str amt = Raise e →
         _lighten float_of_str c amt = Raise e
         ∧ _darken float_of_str c amt = Raise e
         ∧ _alpha float_of_str c amt = Raise e)
    ∧ (∀ text (pre : list ascii) m post r g b e,
         ascii_text text = true →
         segments _FUNC_RE text = ((Lit <$> pre) ++ Hit m :: post)%list →
         Py.lower (group m 1) ∈ ["lighten"; "darken"; "alpha"] →
         _hex_to_rgb (Py.strip (group m 2)) = Ok (r, g, b) →
         _parse_percent_or_float float_of_str (Py.strip (group m 3)) = Raise e →
         _apply_functions float_of_str text = Raise e).
Proof.
  intros fl.
  assert (Hfun : ∀ c amt r g b e,
            _hex_to_rgb c = Ok (r, g, b) →
            _parse_percent_or_float fl amt = Raise e →
            _lighten fl c amt = Raise e ∧ _darken fl c amt = Raise e
            ∧ _alpha fl c amt = Raise e).
  { intros c amt r g b e Hc He. unfold _lighten, _darken, _alpha.
    by rewrite Hc; cbn [mbind result_bind rbind]; rewrite He. }
  split; [|split].
  - intros amt s num _ Hnone. unfold _parse_percent_or_float, py_float. fold s.
    subst num. destruct (Py.endswith "%" s); by rewrite Hnone.
  - intros c amt r g b e _. apply Hfun.
  - intros text pre m post r g b e _ Hs Hname Hc He.
    destruct (Hfun _ _ _ _ _ _ Hc He) as (Hl & Hd & Ha).
    apply apply_functions_raises. eapply sub_result_first_raises; [exact Hs|].
    rewrite !elem_of_cons in Hname. destruct Hname as [Hn|[Hn|[Hn|Hn]]].
    + by rewrite repl_lighten.
    + by rewrite repl_darken.
    + by rewrite repl_alpha.
    + by apply elem_of_nil in Hn.
Qed.

Lemma malformed_amount_raises_witness :
  _parse_percent_or_float PyFloat.dec_float " ten% "
  = Raise (ValueError "could not convert string to float: 'ten'")
  ∧ _parse_percent_or_float PyFloat.dec_float "it's"
    = Raise (ValueError ("could not convert string to float: "
                           +:+ String dquote "it's" +:+ String dquote EmptyString))
  ∧ _alpha PyFloat.dec_float "#fff" "ten%"
    = Raise (ValueError "could not convert string to float: 'ten'")
  ∧ _apply_functions PyFloat.dec_float "a: darken(#fff, ten%);"
    = Raise (ValueError "could not convert string to float: 'ten'").
Proof.
  destruct (malformed_amount_raises PyFloat.dec_float) as (Hp & Hf & Ht).
  split; [|split; [|split]].
  - apply (Hp " ten% "); vm_compute; reflexivity.
  - apply (Hp "it's"); vm_compute; reflexivity.
  - apply (Hf "#fff" "ten%" 255 255 255); vm_compute; reflexivity.
  - apply (Ht "a: darken(#fff, ten%);" (list_ascii_of_string "a: ")
             {| whole := "darken(#fff, ten%)";
                groups := [(3%nat, "ten%"); (2%nat, "#fff"); (1%nat, "darken")] |}
             [Lit ";"%char] 255 255 255).
    + vm_compute. reflexivity.
    + vm_compute. reflexivity.
    + apply elem_of_cons. right. apply elem_of_cons. left. vm_compute. reflexivity.
    + vm_compute. reflexivity.
    + vm_compute. reflexivity.
Defined.

(** ** Lines *)

Lemma splitlines_from_line (l : string) :
  ∀ cur started,
    no_break l = true →
    Py.splitlines_from cur started l
    = if (started || negb (String.eqb l EmptyString))%bool then [cur +:+ l] else [].
Proof.
  induction l as [|c l IH]; intros cur started Hnb.
  - cbn [Py.splitlines_from String.eqb negb]. rewrite orb_false_r, append_empty_r.
    by destruct started.
  - cbn [no_break all_chars] in Hnb. apply andb_prop in Hnb as [Hc Hnb].
    apply negb_true_iff in Hc. cbn [Py.splitlines_from]. rewrite Hc.
    rewrite (IH _ _ Hnb). cbn [orb String.eqb negb]. rewrite orb_true_r.
    by rewrite append_assoc.
Qed.

Lemma splitlines_from_break (l s : string) :
  ∀ cur started,
    no_break l = true →
    Py.splitlines_from cur started (l +:+ String "010" s)
    = (cur +:+ l) :: Py.splitlines_from EmptyString false s.
Proof.
  induction l as [|c l IH]; intros cur started Hnb.
  - rewrite append_nil, append_empty_r. cbn [Py.splitlines_from].
    change (Py.is_linebreak "010") with true. cbv iota.
    by destruct s.
  - cbn [no_break all_chars] in Hnb. apply andb_prop in Hnb as [Hc Hnb].
    apply negb_true_iff in Hc. rewrite append_cons. cbn [Py.splitlines_from].
    rewrite Hc, (IH _ _ Hnb). by rewrite append_assoc.
Qed.

(** Splitting what was joined gives the lines back. *)
Lemma splitlines_join (ls : list string) :
  Forall (fun l => no_break l = true ∧ l ≠ EmptyString) ls →
  Py.splitlines (Py.join (String "010" EmptyString) ls) = ls.
Proof.
  induction 1 as [|l ls [Hnb Hne] Hls IH]; [reflexivity|].
  unfold Py.splitlines in *. destruct ls as [|l' ls].
  - cbn [Py.join]. rewrite (splitlines_from_line l _ _ Hnb).
    destruct (String.eqb l EmptyString) eqn:E; [by apply String.eqb_eq in E|].
    reflexivity.
  - change (Py.join (String "010" EmptyString) (l :: l' :: ls))
      with (l +:+ String "010" EmptyString
              +:+ Py.join (String "010" EmptyString) (l' :: ls)).
    rewrite append_cons, append_nil.
    rewrite (splitlines_from_break l _ _ _ Hnb). by rewrite IH.
Qed.

Lemma no_break_append a b :
  no_break (a +:+ b) = (no_break a && no_break b)%bool.
Proof.
  unfold no_break. induction a as [|x a IH]; [reflexivity|].
  rewrite append_cons. cbn [all_chars]. rewrite IH. by rewrite andb_assoc.
Qed.

Lemma has_char_append_false c a b :
  has_char c (a +:+ b) = false ↔ has_char c a = false ∧ has_char c b = false.
Proof. rewrite has_char_append. apply orb_false_iff. Qed.

(** The lines of a text have no boundary inside and no character the
    text has not. *)
Lemma splitlines_from_lines (n : nat) :
  ∀ s cur started,
    (String.length s <= n)%nat →
    no_break cur = true →
    Forall (fun l => no_break l = true
                     ∧ ∀ c, has_char c cur = false → has_char c s = false →
                            has_char c l = false)
           (Py.splitlines_from cur started s).
Proof.
  induction n as [|n IH]; intros s cur started Hlen Hcur.
  - destruct s; [|cbn in Hlen; lia]. cbn [Py.splitlines_from].
    destruct started; [|constructor]. by repeat constructor.
  - destruct s as [|a s]; cbn [Py.splitlines_from].
    { destruct started; [|constructor]. by repeat constructor. }
    cbn [String.length] in Hlen.
    assert (Hnil : Forall (fun l => no_break l = true
                     ∧ ∀ c, has_char c cur = false → has_char c (String a s) = false →
                            has_char c l = false) [cur]) by (by repeat constructor).
    assert (Hrest : ∀ s', (String.length s' <= n)%nat →
              (∀ c, has_char c (String a s) = false → has_char c s' = false) →
              Forall (fun l => no_break l = true
                     ∧ ∀ c, has_char c cur = false → has_char c (String a s) = false →
                            has_char c l = false)
                (Py.splitlines_from EmptyString false s')).
    { intros s' Hs' Hsub. eapply Forall_impl; [apply (IH s' EmptyString false Hs')|];
        [reflexivity|]. intros l [Hl Hc]. split; [done|].
      intros c _ Hcs. apply Hc; [reflexivity | by apply Hsub]. }
    destruct (Py.is_linebreak a) eqn:Ha.
    + destruct s as [|b s'']; [exact Hnil|].
      destruct (Ascii.eqb a "013" && Ascii.eqb b "010")%bool.
      * constructor; [by inversion Hnil|]. apply Hrest.
        -- cbn [String.length] in Hlen. lia.
        -- intros c Hc. cbn [has_char] in Hc.
           apply orb_false_iff in Hc as [_ Hc]. by apply orb_false_iff in Hc as [_ Hc].
      * constructor; [by inversion Hnil|]. apply Hrest; [lia|].
        intros c Hc. cbn [has_char] in Hc. by apply orb_false_iff in Hc as [_ Hc].
    + eapply Forall_impl.
      * apply (IH s (cur +:+ String a EmptyString) true); [lia|].
        rewrite no_break_append, Hcur. cbn [no_break all_chars]. by rewrite Ha.
      * intros l [Hl Hc]. split; [done|]. intros c Hcc Hcs.
        cbn [has_char] in Hcs. apply orb_false_iff in Hcs as [Hca Hcs].
        apply Hc; [|done]. apply has_char_append_false. split; [done|].
        cbn [has_char]. by rewrite Hca.
Qed.

Lemma splitlines_lines (s : string) :
  Forall (fun l => no_break l = true ∧ ∀ c, has_char c s = false → has_char c l = false)
         (Py.splitlines s).
Proof.
  eapply Forall_impl;
    [apply (splitlines_from_lines (String.length s) s EmptyString false); done|].
  intros l [Hl Hc]. split; [done|]. intros c. by apply Hc.
Qed.

Lemma has_char_lstrip sp c s :
  has_char c s = false → has_char c (Py.lstrip_by sp s) = false.
Proof.
  induction s as [|a s IH]; [done|]. intros H. cbn [Py.lstrip_by].
  destruct (sp a); [|exact H]. cbn [has_char] in H.
  apply orb_false_iff in H as [_ H]. by apply IH.
Qed.

Lemma has_char_rstrip sp c s :
  has_char c s = false → has_char c (Py.rstrip_by sp s) = false.
Proof.
  induction s as [|a s IH]; [done|]. intros H. cbn [has_char] in H.
  apply orb_false_iff in H as [Ha H]. specialize (IH H). cbn [Py.rstrip_by].
  destruct (Py.rstrip_by sp s) as [|b t].
  - destruct (sp a); [done|]. cbn [has_char]. by rewrite Ha.
  - cbn [has_char] in *. by rewrite Ha, IH.
Qed.

Lemma has_char_strip c s :
  has_char c s = false → has_char c (Py.strip s) = false.
Proof. intros H. by apply has_char_rstrip, has_char_lstrip. Qed.

Lemma has_char_join c sep ls :
  has_char c sep = false →
  Forall (fun l => has_char c l = false) ls →
  has_char c (Py.join sep ls) = false.
Proof.
  intros Hsep. induction 1 as [|l ls Hl Hls IH]; [done|].
  destruct ls as [|l' ls]; [exact Hl|].
  change (Py.join sep (l :: l' :: ls)) with (l +:+ sep +:+ Py.join sep (l' :: ls)).
  by rewrite !has_char_append, Hl, Hsep, IH.
Qed.

Lemma banner_has_slash stripped :
  has_char "/" stripped = false → is_variables_banner stripped = false.
Proof.
  intros H. unfold is_variables_banner, Py.startswith.
  destruct stripped as [|a s]; [reflexivity|]. cbn [has_char] in H.
  apply orb_false_iff in H as [Ha _]. cbn [String.prefix].
  destruct (ascii_dec "/" a) as [<-|_]; [|reflexivity].
  by rewrite Ascii.eqb_refl in Ha.
Qed.

Lemma not_blank_nonempty line : not_blank line = true → line ≠ EmptyString.
Proof. intros H ->. discriminate H. Qed.

(** The lines [_remove_var_declarations] keeps. *)
Lemma kept_lines_joinable (keep : string -> bool) (s : string) :
  (∀ l, keep l = true → not_blank l = true) →
  Forall (fun l => no_break l = true ∧ l ≠ EmptyString)
         (List.filter keep (Py.splitlines s)).
Proof.
  intros Hkeep. apply List.Forall_forall. intros l Hin.
  apply List.filter_In in Hin as [Hin Hk].
  pose proof (splitlines_lines s) as Hl. rewrite List.Forall_forall in Hl.
  split; [apply (Hl l Hin) | by apply not_blank_nonempty, Hkeep].
Qed.

(** X12.  What [_remove_var_declarations] returns for an ASCII text, read
    line by line with [splitlines]: exactly the lines of the text
    without its declarations that are neither blank nor a Variables
    banner, in their order; so no line of the result is blank or such a
    banner. *)
Theorem remove_var_declarations_lines :
  ∀ text,
    ascii_text text = true →
    Py.splitlines (_remove_var_declarations text)
    = List.filter
        (fun line => not_blank line && negb (is_variables_banner (Py.strip line)))%bool
        (Py.splitlines (sub _VAR_DEF_RE (fun _ => EmptyString) text))
    ∧ Forall (fun line => not_blank line = true
                          ∧ is_variables_banner (Py.strip line) = false)
             (Py.splitlines (_remove_var_declarations text)).
Proof.
  intros text _.
  assert (Heq : Py.splitlines (_remove_var_declarations text)
    = List.filter
        (fun line => not_blank line && negb (is_variables_banner (Py.strip line)))%bool
        (Py.splitlines (sub _VAR_DEF_RE (fun _ => EmptyString) text))).
  { unfold _remove_var_declarations.
    rewrite splitlines_join.
    - apply List.filter_ext. intros l. unfold not_blank. by rewrite negb_orb.
    - apply kept_lines_joinable. intros l Hl. unfold not_blank.
      rewrite negb_orb in Hl. by apply andb_prop in Hl as [Hl _]. }
  split; [exact Heq|]. rewrite Heq. apply List.Forall_forall. intros l Hin.
  apply List.filter_In in Hin as [_ Hk]. apply andb_prop in Hk as [Hb Hv].
  split; [done | by apply negb_true_iff].
Qed.

Lemma remove_var_declarations_lines_witness :
  Py.splitlines
    (_remove_var_declarations
       ("/* Variables */" +:+ nl +:+ "$a: 1;" +:+ nl +:+ nl +:+ "A { }" +:+ nl))
  = List.filter
      (fun line => not_blank line && negb (is_variables_banner (Py.strip line)))%bool
      (Py.splitlines
         (sub _VAR_DEF_RE (fun _ => EmptyString)
            ("/* Variables */" +:+ nl +:+ "$a: 1;" +:+ nl +:+ nl +:+ "A { }" +:+ nl)))
  ∧ Forall (fun line => not_blank line = true
                        ∧ is_variables_banner (Py.strip line) = false)
           (Py.splitlines
              (_remove_var_declarations
                 ("/* Variables */" +:+ nl +:+ "$a: 1;" +:+ nl +:+ nl
                    +:+ "A { }" +:+ nl))).
Proof.
  apply (remove_var_declarations_lines
           ("/* Variables */" +:+ nl +:+ "$a: 1;" +:+ nl +:+ nl +:+ "A { }" +:+ nl)).
  vm_compute. reflexivity.
Defined.

(** ** A document of plain rules *)

(** X13.  The pipeline on an ASCII document that holds no at sign, no
    dollar sign, no slash and no opening parenthesis (no import,
    variable, comment or call): the result is the non-blank lines of the
    file, in their order, joined by line feeds.  The file is read at the identity
    of the resolved input path, which [_collect] resolves once more. *)
Theorem compile_plain_document :
  ∀ float_of_str resolve sibling path_exists read_text depth input_path text,
    read_text (resolve (resolve input_path)) = Ok text →
    ascii_text text = true →
    has_char "@" text = false →
    has_char "$" text = false →
    has_char "/" text = false →
    has_char "(" text = false →
    compile_qss float_of_str resolve sibling path_exists read_text (S depth) input_path
    = Ok (Py.join (String "010" EmptyString)
            (List.filter not_blank (Py.splitlines text))).
Proof.
  intros fl resolve sibling path_exists read_text depth input_path text
    Hread _ Hat Hdollar Hslash Hparen.
  unfold compile_qss.
  rewrite collect_fresh by apply not_elem_of_empty.
  rewrite Hread. cbn [mbind result_bind rbind].
  rewrite (demands_segments _ _ _ import_re_demands Hat), sub_segments_st_lits.
  rewrite string_of_list_ascii_of_string. cbn [mbind result_bind rbind].
  pose proof (splitlines_lines text) as Hlines. rewrite List.Forall_forall in Hlines.
  assert (Hout : _remove_var_declarations text
    = Py.join (String "010" EmptyString) (List.filter not_blank (Py.splitlines text))).
  { unfold _remove_var_declarations.
    rewrite (sub_unmatched _ _ _ (demands_segments _ _ _ var_def_re_demands Hdollar)).
    f_equal. apply List.filter_ext_in. intros l Hin. unfold not_blank.
    rewrite banner_has_slash, orb_false_r; [reflexivity|].
    by apply has_char_strip, (Hlines l Hin). }
  rewrite Hout.
  set (out := Py.join _ _).
  assert (Hno : ∀ c, has_char c text = false →
                     has_char c (String "010" EmptyString) = false →
                     has_char c out = false).
  { intros c Hc Hsep. apply has_char_join; [exact Hsep|].
    apply List.Forall_forall. intros l Hin. apply List.filter_In in Hin as [Hin _].
    by apply (Hlines l Hin). }
  unfold _remove_comments.
  rewrite (sub_unmatched _ _ _
             (demands_segments _ _ _ comment_re_demands_slash (Hno _ Hslash eq_refl))).
  unfold _expand_vars.
  rewrite (sub_unmatched _ _ _
             (demands_segments _ _ _ var_use_re_demands (Hno _ Hdollar eq_refl))).
  pose proof (demands_segments _ _ _ func_re_demands (Hno _ Hparen eq_refl)) as Hs.
  apply apply_functions_settled; [|exact Hs]. by apply sub_result_none.
Qed.

Lemma compile_plain_document_witness :
  compile_qss PyFloat.dec_float Disk.resolve Disk.sibling
    (Disk.path_exists [("/w/a.qsspp", "A { }" +:+ nl +:+ nl +:+ "B { }" +:+ nl)])
    (Disk.read_text [("/w/a.qsspp", "A { }" +:+ nl +:+ nl +:+ "B { }" +:+ nl)])
    1 "/w/a.qsspp"
  = Ok ("A { }" +:+ nl +:+ "B { }").
Proof.
  apply (compile_plain_document PyFloat.dec_float Disk.resolve Disk.sibling
           (Disk.path_exists [("/w/a.qsspp", "A { }" +:+ nl +:+ nl +:+ "B { }" +:+ nl)])
           (Disk.read_text [("/w/a.qsspp", "A { }" +:+ nl +:+ nl +:+ "B { }" +:+ nl)])
           0%nat "/w/a.qsspp" ("A { }" +:+ nl +:+ nl +:+ "B { }" +:+ nl));
    vm_compute; reflexivity.
Defined.

(** ** References to names that are not declared *)

Lemma dict_get_none_keys d k : dict_get d k = None → k ∉ d.*1.
Proof.
  induction d as [|[k' v'] d IH]; cbn [dict_get]; [intros _; apply not_elem_of_nil|].
  destruct (String.eqb k' k) eqn:E; [discriminate|]. intros H.
  rewrite fmap_cons. apply not_elem_of_cons. split; [|by apply IH].
  intros ->. by rewrite String.eqb_refl in E.
Qed.

Lemma resolve_items_absent name items :
  ∀ resolved changed,
    name ∉ items.*1 →
    dict_get (resolve_items items resolved changed).1 name = dict_get resolved name.
Proof.
  induction items as [|[k v] items IH]; intros resolved changed Hout; [reflexivity|].
  rewrite fmap_cons in Hout. apply not_elem_of_cons in Hout as [Hne Hout].
  cbn [resolve_items]. destruct (negb _).
  - rewrite IH by done. by apply dict_get_set_other.
  - by apply IH.
Qed.

Lemma resolve_passes_absent name n :
  ∀ resolved,
    dict_get resolved name = None → dict_get (resolve_passes n resolved) name = None.
Proof.
  induction n as [|n IH]; intros resolved Hnone; [exact Hnone|].
  cbn [resolve_passes].
  pose proof (resolve_items_absent name resolved resolved false
                (dict_get_none_keys _ _ Hnone)) as Hpass.
  destruct (resolve_items resolved resolved false) as [resolved' changed].
  cbn [fst] in Hpass. rewrite Hnone in Hpass.
  destruct (negb changed); [exact Hpass | by apply IH].
Qed.

Lemma elem_of_finditer r s m : m ∈ finditer r s ↔ Hit m ∈ segments r s.
Proof.
  unfold finditer. rewrite list_elem_of_omap. split.
  - intros ([c|m'] & Hin & Heq); [discriminate|]. by inversion Heq; subst.
  - intros Hin. by exists (Hit m).
Qed.

Lemma concat_seg_ext (f g : segment -> string) (l : list segment) :
  (∀ x, x ∈ l → f x = g x) →
  String.concat EmptyString (f <$> l) = String.concat EmptyString (g <$> l).
Proof.
  intros H. f_equal. apply list_fmap_ext. intros i x Hx. apply H.
  by eapply list_elem_of_lookup_2.
Qed.

(** X14.  A reference to a name the table does not hold is left in the
    text as written: when no reference of an ASCII text names an entry
    of an ASCII table, [_expand_vars] returns the text unchanged,
    whatever the entries are and however they refer to each other. *)
Theorem undeclared_references_stay :
  ∀ text table,
    ascii_text text = true →
    ascii_table table = true →
    (∀ m, m ∈ finditer _VAR_USE_RE text → dict_get table (group m 1) = None) →
    _expand_vars text table = text.
Proof.
  intros text table _ _ Hnone. unfold _expand_vars, sub.
  rewrite <- (segments_text _VAR_USE_RE text) at 2.
  apply concat_seg_ext. intros [c|m] Hin; [reflexivity|].
  cbn [seg_out seg_text]. unfold use_repl.
  rewrite resolve_passes_absent; [reflexivity|]. by apply Hnone, elem_of_finditer.
Qed.

Lemma undeclared_references_stay_witness :
  _expand_vars "QLabel { color: $fg; }" [("bg", "$fg"); ("edge", "$bg")]
  = "QLabel { color: $fg; }".
Proof.
  apply undeclared_references_stay; [vm_compute; reflexivity..|].
  intros m Hin. vm_compute in Hin.
  apply list_elem_of_singleton in Hin. subst m. vm_compute. reflexivity.
Defined.

(** ** The command line *)







Lemma prefix_append (p s : string) : String.prefix p (p +:+ s) = true.
Proof.
  induction p as [|c p IH]; [by destruct s|].
  rewrite append_cons. cbn [String.prefix]. by destruct (ascii_dec c c).
Qed.

Lemma reports_is_report src e : reports src e → is_report e = true.
Proof. intros [rest [->| ->]]; apply prefix_append. Qed.

Section CliFacts.
Variable W : Type.
Variable float_of_str : string -> option float.
Variable depth : nat.
Variable recursion_message : string.
Variable path_of : string -> string.
Variable suffix stem parent : string -> string.
Variable with_suffix joinpath sibling : string -> string -> string.
Variable resolve : W -> string -> string.
Variable path_exists is_file : W -> string -> bool.
Variable read_text : W -> string -> result string.
Variable glob : W -> string -> result (list string).
Variable os_mkdir : string -> W -> result unit * W.
Variable os_write_text : string -> string -> W -> result unit * W.

Local Abbreviation compile_in w :=
  (compile_qss float_of_str (resolve w) sibling (path_exists w) (read_text w) depth).
Local Abbreviation compile_one :=
  (Cli.compile_one W float_of_str depth recursion_message parent sibling resolve
     path_exists read_text os_mkdir os_write_text).
Local Abbreviation glob_all := (Cli.glob_all W glob).
Local Abbreviation is_source := (Cli.is_source W suffix is_file).
Local Abbreviation resolve_inputs := (Cli.resolve_inputs W suffix is_file glob).
Local Abbreviation compile_each :=
  (Cli.compile_each W float_of_str depth recursion_message stem parent with_suffix
     joinpath sibling resolve path_exists read_text os_mkdir os_write_text).
Local Abbreviation main :=
  (Cli.main W float_of_str depth recursion_message path_of suffix stem parent
     with_suffix joinpath sibling resolve path_exists is_file read_text glob
     os_mkdir os_write_text).
Local Abbreviation error_line := (Cli.error_line recursion_message).
Local Abbreviation out_path := (Cli.out_path path_of).
Local Abbreviation out_is_file := (Cli.out_is_file suffix).
Local Abbreviation single_dst := (Cli.single_dst suffix stem with_suffix joinpath).

Lemma io_bind_unfold {A B} (m : Cli.io W A) (k : A -> Cli.io W B) s :
  (m ≫= k) s
  = match m s with
    | (Ok a, s') => k a s'
    | (Raise e, s') => (Raise e, s')
    end.
Proof. reflexivity. Qed.

Lemma glob_all_outcome patterns :
  ∀ files s,
    match glob_all patterns files s with
    | (Ok r, s') =>
        ∃ found,
          Forall2 (fun pat ms => glob (Cli.world s) pat = Ok ms) patterns found
          ∧ r = (files ++ concat found)%list
          ∧ s' = Cli.State (Cli.world s) (Cli.log s ++ warnings patterns found)
    | (Raise e, s') =>
        Cli.world s' = Cli.world s ∧ ∃ pat, pat ∈ patterns ∧ glob (Cli.world s) pat = Raise e
    end.
Proof.
  induction patterns as [|pat patterns IH]; intros files s.
  - cbn. exists []. split; [constructor|]. rewrite !app_nil_r. by destruct s.
  - cbn [Cli.glob_all]. rewrite io_bind_unfold. unfold Cli.ask at 1.
    destruct (glob (Cli.world s) pat) as [ms|e] eqn:Hg.
    + rewrite io_bind_unfold.
      set (s1 := Cli.State (Cli.world s)
                   (Cli.log s ++ (if bool_decide (ms = [])
                                  then [Cli.Stderr (Cli.warn_line pat)] else []))).
      assert (Hs1 : (if bool_decide (ms = []) then Cli.eprint (Cli.warn_line pat)
                     else mret tt) s = (Ok tt, s1)).
      { unfold s1. destruct (bool_decide (ms = [])); [reflexivity|].
        rewrite app_nil_r. by destruct s. }
      rewrite Hs1. specialize (IH (files ++ ms)%list s1).
      destruct (glob_all patterns (files ++ ms)%list s1) as [[r|e] s'].
      * destruct IH as (found & HF & -> & ->). exists (ms :: found).
        split; [by constructor|]. split; [by rewrite <- app_assoc|].
        unfold s1. cbn [Cli.world Cli.log]. f_equal. rewrite <- app_assoc. f_equal.
        unfold warnings. cbn [zip zip_with omap list_omap].
        by destruct (bool_decide (ms = [])).
      * destruct IH as (Hw & pat' & Hin & Hr). split; [exact Hw|].
        exists pat'. split; [by apply elem_of_cons; right | exact Hr].
    + split; [reflexivity|]. exists pat. split; [by apply elem_of_cons; left | exact Hg].
Qed.

Lemma resolve_inputs_unfold patterns s :
  resolve_inputs patterns s
  = match glob_all patterns [] s with
    | (Ok files, s') =>
        (Ok (Cli.dedupe (List.filter (is_source (Cli.world s')) files) ∅ []), s')
    | (Raise e, s') => (Raise e, s')
    end.
Proof.
  unfold Cli.resolve_inputs. rewrite io_bind_unfold.
  by destruct (glob_all patterns [] s) as [[files|e] s'].
Qed.

Lemma resolve_inputs_world inputs s sources s1 :
  resolve_inputs inputs s = (Ok sources, s1) → Cli.world s1 = Cli.world s.
Proof.
  rewrite resolve_inputs_unfold. pose proof (glob_all_outcome inputs [] s) as H.
  destruct (glob_all inputs [] s) as [[files|e] s']; [|discriminate].
  destruct H as (found & _ & _ & ->). by intros [= _ <-].
Qed.



(** [compile_one] step by step. *)
Lemma compile_one_unfold src dst s :
  compile_one src dst s
  = match compile_in (Cli.world s) src with
    | Raise e =>
        (Ok false, Cli.State (Cli.world s) (Cli.log s ++ [Cli.Stderr (error_line src e)]))
    | Ok css =>
        let '(r1, w1) := os_mkdir (parent dst) (Cli.world s) in
        match r1 with
        | Raise e =>
            (Ok false,
             Cli.State w1 (Cli.log s ++ [Cli.Mkdir (parent dst);
                                          Cli.Stderr (error_line src e)]))
        | Ok _ =>
            let '(r2, w2) := os_write_text dst css w1 in
            match r2 with
            | Raise e =>
                (Ok false,
                 Cli.State w2 (Cli.log s ++ [Cli.Mkdir (parent dst);
                                              Cli.WriteText dst css;
                                              Cli.Stderr (error_line src e)]))
            | Ok _ =>
                (Ok true,
                 Cli.State w2 (Cli.log s ++ [Cli.Mkdir (parent dst);
                                              Cli.WriteText dst css;
                                              Cli.Stdout (Cli.ok_line src dst css)]))
            end
        end
    end.
Proof.
  unfold Cli.compile_one, Cli.try_except, mbind, Cli.io_bind, mret, Cli.io_ret,
    Cli.compile, Cli.ask, Cli.mkdir, Cli.write_text, Cli.print, Cli.eprint, Cli.emit.
  destruct (compile_in (Cli.world s) src) as [css|e]; [|reflexivity].
  destruct (os_mkdir (parent dst) (Cli.world s)) as [[[]|e] w1]; cbn [Cli.world Cli.log].
  - destruct (os_write_text dst css w1) as [[[]|e] w2]; cbn [Cli.world Cli.log];
      by rewrite <- !app_assoc.
  - by rewrite <- !app_assoc.
Qed.

(** Every call of [compile_one] returns, with one report line about its
    source as the last thing logged. *)
Lemma compile_one_report src dst s :
  ∃ b s' before line,
    compile_one src dst s = (Ok b, s')
    ∧ Cli.log s' = (Cli.log s ++ before ++ [line])%list
    ∧ Forall (fun e => is_change e = true) before
    ∧ reports src line
    ∧ is_ok_report line = b.
Proof.
  rewrite compile_one_unfold.
  assert (Herr : ∀ e, reports src (Cli.Stderr (error_line src e))).
  { intros e. exists (": " +:+ Cli.str_exn recursion_message e). by right. }
  destruct (compile_in (Cli.world s) src) as [css|e].
  - destruct (os_mkdir (parent dst) (Cli.world s)) as [[[]|e] w1].
    + destruct (os_write_text dst css w1) as [[[]|e] w2].
      * eexists true, _, [Cli.Mkdir (parent dst); Cli.WriteText dst css], _.
        split; [reflexivity|]. split; [reflexivity|]. split; [by repeat constructor|].
        split; [|apply prefix_append].
        exists (" -> " +:+ dst +:+ " ("
                  +:+ PyInt.to_dec (Z.of_nat (String.length css)) +:+ " bytes)").
        by left.
      * eexists false, _, [Cli.Mkdir (parent dst); Cli.WriteText dst css], _.
        split; [reflexivity|]. split; [reflexivity|]. split; [by repeat constructor|].
        split; [apply Herr | reflexivity].
    + eexists false, _, [Cli.Mkdir (parent dst)], _.
      split; [reflexivity|]. split; [reflexivity|]. split; [by repeat constructor|].
      split; [apply Herr | reflexivity].
  - eexists false, _, [], _.
    split; [reflexivity|]. split; [reflexivity|]. split; [constructor|].
    split; [apply Herr | reflexivity].
Qed.

(** X16.  The three ways [compile_one] fails.  Each error is caught: the
    call returns [False] and logs one line on the error stream, naming
    the source and the message.  When the source does not compile, the
    file system is left as it was: no directory is made and nothing is
    written.  When the directory cannot be made, nothing is written.
    When the write fails, the world is the one the failed write left. *)
Theorem compile_one_failures :
  ∀ src dst s,
    (∀ e,
       compile_in (Cli.world s) src = Raise e →
       compile_one src dst s
       = (Ok false,
          Cli.State (Cli.world s) (Cli.log s ++ [Cli.Stderr (error_line src e)])))
    ∧ (∀ css e w1,
         compile_in (Cli.world s) src = Ok css →
         os_mkdir (parent dst) (Cli.world s) = (Raise e, w1) →
         compile_one src dst s
         = (Ok false,
            Cli.State w1 (Cli.log s ++ [Cli.Mkdir (parent dst);
                                         Cli.Stderr (error_line src e)])))
    ∧ (∀ css e w1 w2,
         compile_in (Cli.world s) src = Ok css →
         os_mkdir (parent dst) (Cli.world s) = (Ok tt, w1) →
         os_write_text dst css w1 = (Raise e, w2) →
         compile_one src dst s
         = (Ok false,
            Cli.State w2 (Cli.log s ++ [Cli.Mkdir (parent dst);
                                         Cli.WriteText dst css;
                                         Cli.Stderr (error_line src e)]))).
Proof.
  intros src dst s. rewrite compile_one_unfold. split; [|split].
  - intros e H. by rewrite H.
  - intros css e w1 H Hmk. by rewrite H, Hmk.
  - intros css e w1 w2 H Hmk Hwr. by rewrite H, Hmk, Hwr.
Qed.

(** X17.  [compile_one] never raises, whichever of its steps fails.  It
    returns a truth value; what it logs is calls that change the file
    system followed by exactly one report line about its source, an
    [OK] line on the output stream exactly when it returns [True]; and
    it returns [True] only when the source compiled and the directory
    was made and the compiled text was written to the destination, the
    world it leaves being the one the write left. *)
Theorem compile_one_never_raises :
  ∀ src dst s,
    ∃ b s' before line,
      compile_one src dst s = (Ok b, s')
      ∧ Cli.log s' = (Cli.log s ++ before ++ [line])%list
      ∧ Forall (fun e => is_change e = true) before
      ∧ reports src line
      ∧ is_ok_report line = b
      ∧ (b = true →
         ∃ css w1,
           compile_in (Cli.world s) src = Ok css
           ∧ os_mkdir (parent dst) (Cli.world s) = (Ok tt, w1)
           ∧ os_write_text dst css w1 = (Ok tt, Cli.world s')
           ∧ before = [Cli.Mkdir (parent dst); Cli.WriteText dst css]).
Proof.
  intros src dst s.
  destruct (compile_one_report src dst s)
    as (b & s' & before & line & Heq & Hlog & Hbefore & Hline & Hok).
  exists b, s', before, line. repeat (split; [assumption|]).
  intros ->. rewrite compile_one_unfold in Heq.
  destruct (compile_in (Cli.world s) src) as [css|e]; [|discriminate Heq].
  destruct (os_mkdir (parent dst) (Cli.world s)) as [[[]|e] w1]; [|discriminate Heq].
  destruct (os_write_text dst css w1) as [[[]|e] w2] eqn:Hwr; [|discriminate Heq].
  inversion Heq as [Hs']. subst s'. cbn [Cli.log Cli.world] in *.
  exists css, w1. repeat (split; [done|]).
  apply app_inv_head in Hlog.
  change [Cli.Mkdir (parent dst); Cli.WriteText dst css; Cli.Stdout (Cli.ok_line src dst css)]
    with ([Cli.Mkdir (parent dst); Cli.WriteText dst css]
            ++ [Cli.Stdout (Cli.ok_line src dst css)])%list in Hlog.
  by apply app_inj_tail in Hlog as [<- _].
Qed.

Lemma filter_changes (l : list Cli.event) :
  Forall (fun e => is_change e = true) l → List.filter is_report l = [].
Proof.
  induction 1 as [|e l He Hl IH]; [reflexivity|].
  cbn [List.filter]. by destruct e.
Qed.

(** The loop of [main] goes through every source. *)
Lemma compile_each_outcome sources out_arg :
  ∀ success s,
    ∃ s' gained,
      compile_each sources out_arg success s
      = (Ok (success && forallb is_ok_report (List.filter is_report gained))%bool, s')
      ∧ Cli.log s' = (Cli.log s ++ gained)%list
      ∧ Forall2 reports sources (List.filter is_report gained).
Proof.
  induction sources as [|src sources IH]; intros success s.
  - exists s, []. cbn. rewrite andb_true_r, app_nil_r. by repeat split.
  - cbn [Cli.compile_each]. rewrite io_bind_unfold.
    destruct (compile_one_report src (Cli.multi_dst stem with_suffix joinpath src out_arg) s)
      as (b & s1 & before & line & -> & Hlog & Hbefore & Hline & Hok).
    destruct (IH (success && b)%bool s1) as (s' & gained & -> & Hlog' & Hrep).
    exists s', (before ++ [line] ++ gained)%list.
    rewrite List.filter_app, (filter_changes _ Hbefore). cbn [app List.filter].
    rewrite (reports_is_report _ _ Hline). cbn [forallb]. rewrite Hok.
    split; [by rewrite andb_assoc|]. split.
    + rewrite Hlog', Hlog. by rewrite <- !app_assoc.
    + by constructor.
Qed.

Lemma main_unfold inputs out s sources s1 :
  resolve_inputs inputs s = (Ok sources, s1) →
  main inputs out s
  = match sources with
    | [] => (Ok 2, Cli.State (Cli.world s1) (Cli.log s1 ++ [Cli.Stderr Cli.no_inputs_line]))
    | src :: others =>
        if (Nat.ltb 1 (length sources) && out_is_file (out_path out))%bool
        then (Ok 2, Cli.State (Cli.world s1)
                      (Cli.log s1 ++ [Cli.Stderr Cli.out_not_dir_line]))
        else
          match
            (if Nat.eqb (length sources) 1
             then compile_one src (single_dst src (out_path out))
             else
               (match out_path out with
                | Some o => Cli.mkdir W os_mkdir o
                | None => mret tt
                end);;
               compile_each sources (out_path out) true) s1
          with
          | (Ok success, s') => (Ok (if success : bool then 0 else 1), s')
          | (Raise e, s') => (Raise e, s')
          end
    end.
Proof.
  intros Hres. unfold Cli.main. rewrite io_bind_unfold, Hres.
  destruct sources as [|src others]; [reflexivity|].
  destruct (Nat.ltb 1 (length (src :: others)) && out_is_file (out_path out))%bool;
    [reflexivity|].
  rewrite io_bind_unfold. reflexivity.
Qed.

(** X18.  The two refusals of [main].  With the list of sources that
    [resolve_inputs] returned, [main] returns 2 exactly when the list is
    empty, or holds more than one source while the output option is a
    non-empty string whose suffix is [.qss] in any letter case.  In
    both cases nothing is compiled and the file system is left as it
    was: one line goes to the error stream. *)
Theorem main_refusals :
  ∀ inputs out s sources s1,
    resolve_inputs inputs s = (Ok sources, s1) →
    ((main inputs out s).1 = Ok 2
     ↔ sources = []
       ∨ ((1 < length sources)%nat ∧ out_is_file (out_path out) = true))
    ∧ ((main inputs out s).1 = Ok 2 →
       ∃ line, (main inputs out s).2
               = Cli.State (Cli.world s) (Cli.log s1 ++ [Cli.Stderr line])).
Proof.
  intros inputs out s sources s1 Hres.
  rewrite (main_unfold _ out _ _ _ Hres), <- (resolve_inputs_world _ _ _ _ Hres).
  destruct sources as [|src others].
  { split; [split; [by left | reflexivity]|]. intros _. by eexists. }
  destruct (Nat.ltb 1 (length (src :: others))) eqn:Hlen;
    [apply Nat.ltb_lt in Hlen | apply Nat.ltb_ge in Hlen].
  - destruct (out_is_file (out_path out)) eqn:Hout; cbn [andb].
    + split; [split; [by right | reflexivity]|]. intros _. by eexists.
    + match goal with |- context [match ?x with _ => _ end] => destruct x as [[[]|e] s'] end;
        (split; [split; [discriminate | by intros [?|[_ ?]]] | discriminate]).
  - cbn [andb].
    match goal with |- context [match ?x with _ => _ end] => destruct x as [[[]|e] s'] end;
      (split; [split; [discriminate | intros [?|[? _]]; [done | lia]] | discriminate]).
Qed.

(** X19.  Every source gets its turn.  When [main] refuses nothing and,
    with several sources and an output directory, the directory could be
    made, [main] returns; after the warnings of [resolve_inputs] the log
    holds exactly one report line for each source, in the order of the
    sources, a failure of one source not keeping the later ones from
    being compiled; and the exit status is 0 when every report is an
    [OK] line and 1 otherwise. *)
Theorem main_reports_every_source :
  ∀ inputs out s sources s1,
    resolve_inputs inputs s = (Ok sources, s1) →
    sources ≠ [] →
    ((1 < length sources)%nat → out_is_file (out_path out) = false) →
    (∀ o, (1 < length sources)%nat → out_path out = Some o →
          (os_mkdir o (Cli.world s)).1 = Ok tt) →
    ∃ s' gained,
      main inputs out s
      = (Ok (if forallb is_ok_report (List.filter is_report gained) then 0 else 1), s')
      ∧ Cli.log s' = (Cli.log s1 ++ gained)%list
      ∧ Forall2 reports sources (List.filter is_report gained).
Proof.
  intros inputs out s sources s1 Hres Hne Hout Hmk.
  rewrite (main_unfold _ out _ _ _ Hres).
  rewrite <- (resolve_inputs_world _ _ _ _ Hres) in Hmk.
  destruct sources as [|src others]; [done|clear Hne].
  destruct others as [|src2 others].
  - cbn [length Nat.ltb Nat.leb Nat.eqb andb].
    destruct (compile_one_report src (single_dst src (out_path out)) s1)
      as (b & s' & before & line & -> & Hlog & Hbefore & Hline & Hok).
    exists s', (before ++ [line])%list.
    rewrite List.filter_app, (filter_changes _ Hbefore). cbn [app List.filter].
    rewrite (reports_is_report _ _ Hline). cbn [forallb]. rewrite Hok, andb_true_r.
    split; [reflexivity|]. split; [exact Hlog|]. by repeat constructor.
  - rewrite Hout by (cbn [length]; lia). rewrite andb_false_r.
    change (Nat.eqb (length (src :: src2 :: others)) 1) with false. cbv iota.
    rewrite io_bind_unfold.
    destruct (out_path out) as [o|] eqn:Ho.
    + specialize (Hmk o ltac:(cbn [length]; lia) eq_refl).
      unfold Cli.mkdir at 1.
      destruct (os_mkdir o (Cli.world s1)) as [[[]|e] w1]; [|discriminate Hmk].
      destruct (compile_each_outcome (src :: src2 :: others) (Some o) true
                  (Cli.State w1 (Cli.log s1 ++ [Cli.Mkdir o])))
        as (s' & gained & -> & Hlog & Hrep).
      exists s', (Cli.Mkdir o :: gained). cbn [List.filter is_report andb] in *.
      split; [reflexivity|]. split; [|exact Hrep].
      rewrite Hlog. cbn [Cli.log]. by rewrite <- app_assoc.
    + destruct (compile_each_outcome (src :: src2 :: others) None true s1)
        as (s' & gained & Heq & Hlog & Hrep).
      exists s', gained. change ((mret tt : Cli.io W unit) s1) with (Ok tt, s1).
      cbv iota beta. rewrite Heq. cbn [andb]. by repeat split.
Qed.


End CliFacts.

Lemma compile_one_failures_witness :
  Desk.compile_one "/w/b.qsspp" "/w/b.qss" (Cli.State Desk.two_files [])
  = (Ok false,
     Cli.State Desk.two_files [Cli.Stderr "[ERROR] /w/b.qsspp: Invalid color: #12"]).
Proof.
  apply (proj1 (compile_one_failures Disk.files PyFloat.dec_float 1000
                  Desk.recursion_message Desk.parent Disk.sibling
                  (fun _ => Disk.resolve) Disk.path_exists Disk.read_text
                  Desk.os_mkdir Desk.os_write_text
                  "/w/b.qsspp" "/w/b.qss" (Cli.State Desk.two_files []))
           (ValueError "Invalid color: #12")).
  vm_compute. reflexivity.
Defined.

Lemma main_refusals_witness :
  ((Desk.main ["/w/a.qsspp"; "/w/b.qsspp"] (Some "out.QSS")
      (Cli.State Desk.two_files [])).1 = Ok 2
   ↔ ["/w/a.qsspp"; "/w/b.qsspp"] = []
     ∨ ((1 < length ["/w/a.qsspp"; "/w/b.qsspp"])%nat
        ∧ Cli.out_is_file Desk.suffix (Cli.out_path id (Some "out.QSS")) = true))
  ∧ ((Desk.main ["/w/a.qsspp"; "/w/b.qsspp"] (Some "out.QSS")
        (Cli.State Desk.two_files [])).1 = Ok 2 →
     ∃ line,
       (Desk.main ["/w/a.qsspp"; "/w/b.qsspp"] (Some "out.QSS")
          (Cli.State Desk.two_files [])).2
       = Cli.State Desk.two_files ([] ++ [Cli.Stderr line])).
Proof.
  apply (main_refusals Disk.files PyFloat.dec_float 1000 Desk.recursion_message
           id Desk.suffix Desk.stem Desk.parent Desk.with_suffix Desk.joinpath
           Disk.sibling (fun _ => Disk.resolve) Disk.path_exists Disk.path_exists
           Disk.read_text Desk.glob Desk.os_mkdir Desk.os_write_text
           ["/w/a.qsspp"; "/w/b.qsspp"] (Some "out.QSS")
           (Cli.State Desk.two_files []) ["/w/a.qsspp"; "/w/b.qsspp"]
           (Cli.State Desk.two_files [])).
  vm_compute. reflexivity.
Defined.

Lemma main_reports_every_source_witness :
  ∃ s' gained,
    Desk.main ["/w/a.qsspp"; "/w/b.qsspp"; "/w/c.qsspp"] (Some "out")
      (Cli.State Desk.two_files [])
    = (Ok (if forallb is_ok_report (List.filter is_report gained) then 0 else 1), s')
    ∧ Cli.log s'
      = ([Cli.Stderr "[WARN] no files matched: /w/c.qsspp"] ++ gained)%list
    ∧ Forall2 reports ["/w/a.qsspp"; "/w/b.qsspp"] (List.filter is_report gained).
Proof.
  apply (main_reports_every_source Disk.files PyFloat.dec_float 1000
           Desk.recursion_message id Desk.suffix Desk.stem Desk.parent
           Desk.with_suffix Desk.joinpath Disk.sibling (fun _ => Disk.resolve)
           Disk.path_exists Disk.path_exists Disk.read_text Desk.glob
           Desk.os_mkdir Desk.os_write_text
           ["/w/a.qsspp"; "/w/b.qsspp"; "/w/c.qsspp"] (Some "out")
           (Cli.State Desk.two_files []) ["/w/a.qsspp"; "/w/b.qsspp"]
           (Cli.State Desk.two_files
              [Cli.Stderr "[WARN] no files matched: /w/c.qsspp"])).
  - vm_compute. reflexivity.
  - discriminate.
  - intros _. vm_compute. reflexivity.
  - intros o _ _. reflexivity.
Defined.

